(** * queuectl: a shallow embedding of the job queue engine

    The development follows the Python sources:
    - [persistence.py]: the [jobs] table and [SQLiteJobRepository]
      ([add], [get], [update_state], [requeue], [dequeue]);
    - [core.py]: [WorkerConfig], [complete_job], [fail_job],
      [calculate_backoff];
    - [worker.py]: [Worker.process_job];
    - [db.py]: [DB_PATH] and [get_connection].

    Conventions of the embedding.
    - The table is the list of its rows in rowid order; SQL statements are
      functions on that list.
    - TEXT values are strings and are compared the way SQLite's BINARY
      collation compares them, byte by byte ([String.compare]).
    - The wall clock, the random generator, the sqlite engine and the child
      process are inputs: every operation takes the readings it makes as
      arguments.  An instant is a number of microseconds since the Unix
      epoch, the resolution of Python's [datetime].
    - Python floats are modelled by exact rationals: rounding to binary64 is
      not represented.  The range checks of [timedelta] and [datetime] are.
    - The statements of [persistence.py] are first given by what they do to
      the table once the engine carries them out; the methods of [Engine]
      add what happens when the engine refuses a call: the database is
      locked or broken, or a Python int to bind is outside the 64-bit range
      of an SQLite INTEGER.  The columns themselves hold unbounded integers
      (a counter incremented once per claim does not leave the 64-bit
      range).
    - Python exceptions are values of type [exn]; code that can raise runs in
      a state-and-error monad over the table. *)

From Stdlib Require Import ZArith QArith Qround Qabs Qpower Lia Lqa Bool List.
From Stdlib Require Import Ascii String DecimalString OrderedTypeEx.
From Stdlib Require Import Sorted Permutation.
From stdpp Require Import gmap strings.
Import ListNotations.

Local Open Scope string_scope.
Local Open Scope Z_scope.

(** ** Data model ([db.py], the [jobs] table) *)

(** [state TEXT NOT NULL CHECK(state IN ('pending', 'processing',
    'completed', 'failed', 'dead'))] *)
Inductive job_state : Type :=
| pending
| processing
| completed
| failed
| dead.

Definition state_eqb (a b : job_state) : bool :=
  match a, b with
  | pending, pending | processing, processing | completed, completed
  | failed, failed | dead, dead => true
  | _, _ => false
  end.

(** One row of [jobs]; [None] is SQL NULL. *)
Record job : Type := mkJob {
  id : string;
  command : string;
  state : job_state;
  attempts : Z;
  max_retries : Z;
  created_at : string;
  updated_at : string;
  priority : Z;
  run_at : option string;
  stdout : option string;
  stderr : option string
}.

(** The table, in rowid order. *)
Definition store : Type := list job.

(** [id TEXT PRIMARY KEY]: no two rows share an id. *)
Definition primary_key (s : store) : Prop := List.NoDup (List.map id s).

(** ** Timestamps *)

(** Days since 1970-01-01 to the proleptic Gregorian (year, month, day), as
    [datetime] computes it. *)
Definition civil_from_days (days : Z) : Z * Z * Z :=
  let z := days + 719468 in
  let era := z / 146097 in
  let doe := z - era * 146097 in
  let yoe := (doe - doe / 1460 + doe / 36524 - doe / 146096) / 365 in
  let doy := doe - (365 * yoe + yoe / 4 - yoe / 100) in
  let mp := (5 * doy + 2) / 153 in
  let d := doy - (153 * mp + 2) / 5 + 1 in
  let m := if mp <? 10 then mp + 3 else mp - 9 in
  let y := yoe + era * 400 + (if m <=? 2 then 1 else 0) in
  (y, m, d).

Definition digit (n : Z) : ascii := ascii_of_N (48 + Z.to_N (n mod 10)).

Definition digits2 (n : Z) : string :=
  String (digit (n / 10)) (String (digit n) EmptyString).

Definition digits4 (n : Z) : string :=
  String (digit (n / 1000)) (String (digit (n / 100)) (digits2 n)).

(** A number in decimal, without padding. *)
Definition show (z : Z) : string := NilZero.string_of_int (Z.to_int z).

(** Python's [strftime('%Y-%m-%dT%H:%M:%SZ')] of the UTC instant [sec] whole
    seconds after the epoch: the format of [get_iso_now] and of
    [calculate_backoff].  The C library prints the year without padding,
    so a year below 1000 has fewer than four digits. *)
Definition strftime_iso (sec : Z) : string :=
  let '(y, m, d) := civil_from_days (sec / 86400) in
  let sod := sec mod 86400 in
  (show y ++ "-" ++ digits2 m ++ "-" ++ digits2 d ++ "T" ++
   digits2 (sod / 3600) ++ ":" ++ digits2 (sod mod 3600 / 60) ++ ":" ++
   digits2 (sod mod 60) ++ "Z")%string.

(** SQLite's [strftime('%Y-%m-%dT%H:%M:%SZ', ...)] of the same instant, for
    the years 0000 to 9999 of its date functions: the year is padded to
    four digits. *)
Definition sql_strftime_iso (sec : Z) : string :=
  let '(y, m, d) := civil_from_days (sec / 86400) in
  let sod := sec mod 86400 in
  (digits4 y ++ "-" ++ digits2 m ++ "-" ++ digits2 d ++ "T" ++
   digits2 (sod / 3600) ++ ":" ++ digits2 (sod mod 3600 / 60) ++ ":" ++
   digits2 (sod mod 60) ++ "Z")%string.

(** Whole seconds of an instant given in microseconds: [strftime] drops the
    fraction of the second. *)
Definition second_of (us : Z) : Z := us / 1000000.

(** [get_iso_now()] when the clock reads [clock]. *)
Definition get_iso_now (clock : Z) : string := strftime_iso (second_of clock).

(** [strftime('%Y-%m-%dT%H:%M:%SZ', 'now')] inside a statement when the
    clock reads [clock]. *)
Definition sql_now (clock : Z) : string := sql_strftime_iso (second_of clock).

(** ** Exceptions and the repository monad *)

Inductive exn : Type :=
| OperationalError (msg : string)   (* sqlite3.OperationalError *)
| IntegrityError (msg : string)     (* sqlite3.IntegrityError *)
| DatabaseError (msg : string)      (* any other sqlite3.DatabaseError *)
| ZeroDivisionError (msg : string)
| OverflowError (msg : string)
| TimeoutExpired (msg : string)     (* subprocess.TimeoutExpired *)
| OSError (msg : string).           (* what subprocess.run raises at launch *)

(** [str(e)] *)
Definition str (e : exn) : string :=
  match e with
  | OperationalError m | IntegrityError m | DatabaseError m
  | ZeroDivisionError m | OverflowError m | TimeoutExpired m | OSError m => m
  end.

(** A computation over the table: it returns a value or raises, and leaves
    a table behind in both cases. *)
Definition M (A : Type) : Type := store -> (exn + A) * store.

Definition ret {A} (a : A) : M A := fun s => (inr a, s).

Definition raise {A} (e : exn) : M A := fun s => (inl e, s).

Definition bind {A B} (m : M A) (k : A -> M B) : M B :=
  fun s =>
    match m s with
    | (inr a, s') => k a s'
    | (inl e, s') => (inl e, s')
    end.

(** [try: body / except Exception as e: handler(e)] *)
Definition try_except {A} (body : M A) (handler : exn -> M A) : M A :=
  fun s =>
    match body s with
    | (inr a, s') => (inr a, s')
    | (inl e, s') => handler e s'
    end.

(** A pure computation that may raise, run inside [M]. *)
Definition lift {A} (r : exn + A) : M A := fun s => (r, s).

Notation "x <- m ;; k" := (bind m (fun x => k))
  (at level 100, m at next level, right associativity).

(** ** SQLiteJobRepository ([persistence.py]) *)

Definition has_id (job_id : string) (r : job) : bool := String.eqb (id r) job_id.

(** [UPDATE jobs SET ... WHERE cond]: the rows that satisfy the condition
    are rewritten in place, the others are kept. *)
Definition sql_update (cond : job -> bool) (set : job -> job) (s : store) : store :=
  List.map (fun r => if cond r then set r else r) s.

(** The rows an [UPDATE ... WHERE cond] touches, after the update: what
    [RETURNING *] yields and what [rowcount] counts. *)
Definition sql_updated (cond : job -> bool) (set : job -> job) (s : store) : list job :=
  List.map set (List.filter cond s).

(** [add]: [job_id] is the value of [str(uuid.uuid4())] and [clock] the
    reading of [get_iso_now()].  [attempts], [stdout] and [stderr] take the
    column defaults.  The primary key rejects an id already present. *)
Definition add (job_id : string) (clock : Z) (command : string)
    (max_retries priority : Z) (run_at : option string) : M string :=
  fun s =>
    let now := get_iso_now clock in
    if existsb (has_id job_id) s
    then (inl (IntegrityError "UNIQUE constraint failed: jobs.id"), s)
    else (inr job_id,
          (s ++ [ {| id := job_id; command := command; state := pending;
                     attempts := 0; max_retries := max_retries;
                     created_at := now; updated_at := now;
                     priority := priority; run_at := run_at;
                     stdout := None; stderr := None |} ])%list).

(** [get]: [SELECT * FROM jobs WHERE id = ?], [fetchone()]. *)
Definition get (job_id : string) : M (option job) :=
  fun s => (inr (List.find (has_id job_id) s), s).

(** [COALESCE(?, column)] *)
Definition coalesce (given old : option string) : option string :=
  match given with
  | Some v => Some v
  | None => old
  end.

(** The [SET] clause of [update_state]. *)
Definition set_state (st : job_state) (now : string)
    (out err ra : option string) (r : job) : job :=
  {| id := id r; command := command r; state := st;
     attempts := attempts r; max_retries := max_retries r;
     created_at := created_at r; updated_at := now;
     priority := priority r; run_at := ra;
     stdout := coalesce out (stdout r); stderr := coalesce err (stderr r) |}.

(** [update_state(job_id, state, stdout=None, stderr=None, run_at=None)] *)
Definition update_state (clock : Z) (job_id : string) (st : job_state)
    (out err ra : option string) : M unit :=
  fun s =>
    let now := get_iso_now clock in
    (inr tt, sql_update (has_id job_id) (set_state st now out err ra) s).

(** The [SET] clause of [requeue]. *)
Definition set_requeued (now : string) (r : job) : job :=
  {| id := id r; command := command r; state := pending;
     attempts := 0; max_retries := max_retries r;
     created_at := created_at r; updated_at := now;
     priority := priority r; run_at := None;
     stdout := None; stderr := None |}.

(** [requeue]: [UPDATE ... WHERE id = ? AND state = 'dead'], then
    [cursor.rowcount > 0]. *)
Definition requeue (clock : Z) (job_id : string) : M bool :=
  fun s =>
    let now := get_iso_now clock in
    let cond := fun r => has_id job_id r && state_eqb (state r) dead in
    (inr (0 <? Z.of_nat (List.length (sql_updated cond (set_requeued now) s))),
     sql_update cond (set_requeued now) s).

(** The [WHERE] clause of the inner [SELECT] of [dequeue]:
    [state = 'pending' AND (run_at IS NULL OR run_at <= now)]. *)
Definition eligible (now : string) (r : job) : bool :=
  state_eqb (state r) pending &&
  match run_at r with
  | None => true
  | Some t => String.leb t now
  end.

(** [ORDER BY priority DESC, created_at ASC]: [r1] comes strictly before
    [r2]. *)
Definition sorts_before (r1 r2 : job) : bool :=
  (priority r2 <? priority r1) ||
  ((priority r1 =? priority r2) && String.ltb (created_at r1) (created_at r2)).

(** [LIMIT 1] after the [ORDER BY]: a row that no other row comes strictly
    before.  SQL leaves the choice among rows equal in both keys open; the
    model takes the one with the least rowid. *)
Fixpoint first_row (rows : list job) : option job :=
  match rows with
  | [] => None
  | r :: rest =>
      match first_row rest with
      | Some b => if sorts_before b r then Some b else Some r
      | None => Some r
      end
  end.

(** The [SET] clause of [dequeue]. *)
Definition set_claimed (now : string) (r : job) : job :=
  {| id := id r; command := command r; state := processing;
     attempts := attempts r + 1; max_retries := max_retries r;
     created_at := created_at r; updated_at := now;
     priority := priority r; run_at := run_at r;
     stdout := stdout r; stderr := stderr r |}.

(** The statement of [dequeue] ("Golden Query"):
    [UPDATE jobs SET ... WHERE id = (SELECT id ... LIMIT 1) RETURNING *].
    Both occurrences of [strftime(..., 'now')] read the same [now].  An
    empty inner [SELECT] yields NULL, which no id equals. *)
Definition golden_query (now : string) (s : store) : store * list job :=
  match first_row (List.filter (eligible now) s) with
  | Some b =>
      (sql_update (has_id (id b)) (set_claimed now) s,
       sql_updated (has_id (id b)) (set_claimed now) s)
  | None => (s, [])
  end.

(** [dequeue].  [fault] is the exception the sqlite engine raises while the
    connection is opened, the write lock is taken, the statement runs or
    the transaction commits, if it raises one; the transaction is then
    rolled back.  [sqlite3.OperationalError] is caught and turned into
    [None]; any other exception is re-raised. *)
Definition dequeue (fault : option exn) (clock : Z) : M (option job) :=
  fun s =>
    match fault with
    | Some (OperationalError _) => (inr None, s)
    | Some e => (inl e, s)
    | None =>
        let '(s', rows) := golden_query (sql_now clock) s in
        (inr (List.head rows), s')
    end.

(** ** Core ([core.py]) *)

(** [WorkerConfig]: [backoff_base] is [float(backoff_base)]. *)
Record WorkerConfig : Type := { backoff_base : Q }.

(** What one call of [fail_job] reads from its surroundings: the value of
    [random.random()] (in [0, 1)), the clock at [datetime.now] in
    [calculate_backoff], and the clock at [get_iso_now] in [update_state]. *)
Record readings : Type := {
  random_draw : Q;
  now_backoff : Z;
  now_update : Z
}.

(** [complete_job] *)
Definition complete_job (clock : Z) (j : job) (out err : string) : M unit :=
  update_state clock (id j) completed (Some out) (Some err) None.

(** [base ** attempts] for a float base and an int exponent. *)
Definition float_pow (b : Q) (n : Z) : exn + Q :=
  if Qeq_bool b 0 && (n <? 0)
  then inl (ZeroDivisionError "0.0 cannot be raised to a negative power")
  else inr (Qpower b n).

(** [random.uniform(a, b)] is [a + (b - a) * random()]. *)
Definition uniform (a b u : Q) : Q := (a + (b - a) * u)%Q.

(** Rounding to the nearest integer, ties to even. *)
Definition round_half_even (q : Q) : Z :=
  let f := Qfloor q in
  match ((q - inject_Z f) ?= (1 # 2))%Q with
  | Lt => f
  | Gt => f + 1
  | Eq => if Z.even f then f else f + 1
  end.

(** [datetime.timedelta(seconds=d)] as a number of microseconds: rounded
    half to even, and refused when the number of days leaves
    [-999999999 .. 999999999]. *)
Definition timedelta (d : Q) : exn + Z :=
  let us := round_half_even (d * 1000000) in
  let days := us / 86400000000 in
  if (-999999999 <=? days) && (days <=? 999999999)
  then inr us
  else inl (OverflowError
              ("days=" ++ show days ++ "; must have magnitude <= 999999999")).

(** [datetime.min] and [datetime.max] in UTC, in microseconds. *)
Definition datetime_min : Z := -62135596800000000.
Definition datetime_max : Z := 253402300799999999.

(** [datetime + timedelta] *)
Definition datetime_add (t d : Z) : exn + Z :=
  if (datetime_min <=? t + d) && (t + d <=? datetime_max)
  then inr (t + d)
  else inl (OverflowError "date value out of range").

(** Sequencing of pure steps that may raise. *)
Definition and_then {A B} (r : exn + A) (k : A -> exn + B) : exn + B :=
  match r with
  | inr a => k a
  | inl e => inl e
  end.

(** [calculate_backoff]: returns [(delay_with_jitter, next_run_at_iso)]. *)
Definition calculate_backoff (config : WorkerConfig) (rd : readings) (j : job)
    : exn + (Q * string) :=
  and_then (float_pow (backoff_base config) (attempts j)) (fun delay_seconds =>
  let jitter := uniform (8 # 10) (12 # 10) (random_draw rd) in
  let delay_with_jitter := (delay_seconds * jitter)%Q in
  and_then (timedelta delay_with_jitter) (fun delta =>
  and_then (datetime_add (now_backoff rd) delta) (fun next_run_time =>
  inr (delay_with_jitter, strftime_iso (second_of next_run_time))))).

(** [fail_job] *)
Definition fail_job (config : WorkerConfig) (rd : readings) (j : job)
    (err : string) : M unit :=
  if attempts j >=? max_retries j
  then update_state (now_update rd) (id j) dead None (Some err) None
  else
    p <- lift (calculate_backoff config rd j) ;;
    update_state (now_update rd) (id j) pending None (Some err) (Some (snd p)).

(** ** Worker ([worker.py]) *)

(** What [subprocess.run] did: it returned a [CompletedProcess] (with
    [text=True] and [capture_output=True] both streams are strings), or it
    raised. *)
Inductive run_result : Type :=
| Returned (returncode : Z) (out err : string)
| Raised (e : exn).

Definition JOB_TIMEOUT_SECONDS : Z := 60.

(** [Worker.process_job].  [rd] are the readings of the calls made in the
    [try] body and [rd'] those of the call made in an [except] clause. *)
Definition process_job (config : WorkerConfig) (rd rd' : readings) (j : job)
    (res : run_result) : M unit :=
  try_except
    match res with
    | Raised e => raise e
    | Returned returncode out err =>
        if returncode =? 0
        then complete_job (now_update rd) j out err
        else fail_job config rd j
               (if String.eqb err "" then "Job failed with non-zero exit code"
                else err)
    end
    (fun e =>
       match e with
       | TimeoutExpired _ =>
           fail_job config rd' j
             ("Job timed out after " ++ show JOB_TIMEOUT_SECONDS ++ "s.")
       | _ =>
           fail_job config rd' j ("Subprocess execution failed: " ++ str e)
       end).

(** The calls of [fail_job] that do not raise: the retries are exhausted,
    or the backoff computation returns. *)
Definition backoff_returns (config : WorkerConfig) (rd : readings) (j : job) : Prop :=
  max_retries j <= attempts j \/ exists p, calculate_backoff config rd j = inr p.

(** ** Storage location ([db.py]) *)

(** [DB_PATH = os.environ.get("QUEUECTL_DB_PATH", "queue.db")] *)
Definition DB_PATH (environ : gmap string string) : string :=
  default "queue.db" (environ !! "QUEUECTL_DB_PATH").

(** [get_connection()]: the database [sqlite3.connect(DB_PATH)] opens, among
    the initialised databases [files] of the machine ([None]: no initialised
    database at that path). *)
Definition get_connection (environ : gmap string string)
    (files : gmap string store) : option store :=
  files !! DB_PATH environ.

(** A repository or core operation run in a process whose environment is
    [environ]: it works on the database [get_connection] opens. *)
Definition run_core {A} (environ : gmap string string) (op : M A)
    (files : gmap string store) : option ((exn + A) * gmap string store) :=
  match get_connection environ files with
  | Some s =>
      let '(r, s') := op s in
      Some (r, <[DB_PATH environ := s']> files)
  | None => None
  end.

(** ** Reachable tables *)

(** One call of a core operation, with any arguments and any readings. *)
Inductive core_step : store -> store -> Prop :=
| step_add job_id clock cmd mr prio ra s :
    core_step s (snd (add job_id clock cmd mr prio ra s))
| step_dequeue fault clock s :
    core_step s (snd (dequeue fault clock s))
| step_complete_job clock j out err s :
    core_step s (snd (complete_job clock j out err s))
| step_fail_job config rd j err s :
    core_step s (snd (fail_job config rd j err s))
| step_requeue clock job_id s :
    core_step s (snd (requeue clock job_id s)).

(** The tables the core operations can produce from the empty table that
    [init_db] creates. *)
Inductive reachable : store -> Prop :=
| reach_init : reachable []
| reach_step s s' : reachable s -> core_step s s' -> reachable s'.

(** ** Sample data *)

Definition sample_pending (job_id created : string) (prio : Z)
    (ra : option string) : job :=
  {| id := job_id; command := "true"; state := pending; attempts := 0;
     max_retries := 3; created_at := created; updated_at := created;
     priority := prio; run_at := ra; stdout := None; stderr := None |}.

(** 2026-11-03T12:00:00.100000Z *)
Definition sample_clock : Z := 1793707200100000.

Definition sample_table : store :=
  [ sample_pending "a" "2026-11-03T11:00:00Z" 0 (Some "2020-01-01T00:00:00Z");
    sample_pending "b" "2026-11-03T10:00:00Z" 5 (Some "2030-01-01T00:00:00Z");
    sample_pending "c" "2026-11-03T10:00:00Z" 0 None ].

(** A row as [dequeue] returns it: in state [processing]. *)
Definition sample_processing (job_id : string) (att mr : Z) : job :=
  {| id := job_id; command := "false"; state := processing; attempts := att;
     max_retries := mr; created_at := "2026-11-03T11:00:00Z";
     updated_at := "2026-11-03T11:59:59Z"; priority := 0; run_at := None;
     stdout := None; stderr := None |}.

(** Readings taken at [sample_clock], with the given random draw. *)
Definition sample_readings (u : Q) : readings :=
  {| random_draw := u; now_backoff := sample_clock; now_update := sample_clock |}.

(** A row in the dead-letter state, with output and a stale [run_at]. *)
Definition sample_dead (job_id : string) : job :=
  {| id := job_id; command := "false"; state := dead; attempts := 3;
     max_retries := 3; created_at := "2026-11-03T11:00:00Z";
     updated_at := "2026-11-03T11:59:59Z"; priority := 0;
     run_at := Some "2026-11-03T11:30:00Z";
     stdout := Some "partial"; stderr := Some "boom" |}.

Definition sample_dead_table : store :=
  [ sample_pending "c" "2026-11-03T10:00:00Z" 0 None; sample_dead "d" ].

(** A job with [max_retries = 2] whose command fails twice, with the default
    base 2: it is enqueued at 12:00:00.1, claimed, fails (jitter 0.8, so a
    delay of 1.6 s), is looked for again in the same second and two seconds
    later, fails again, and is requeued.  The result collects what the four
    calls that return something returned and the row at the end. *)
Definition retry_scenario : M (list (option job) * bool * option job) :=
  let config := {| backoff_base := 2 |} in
  _ <- add "a" sample_clock "false" 2 0 None ;;
  first <- dequeue None sample_clock ;;
  _ <- match first with
       | Some j => fail_job config (sample_readings 0) j "boom"
       | None => ret tt
       end ;;
  early <- dequeue None (sample_clock + 500000) ;;
  second <- dequeue None (sample_clock + 2000000) ;;
  _ <- match second with
       | Some j =>
           fail_job config
             {| random_draw := 0; now_backoff := sample_clock + 2000000;
                now_update := sample_clock + 2000000 |} j "boom again"
       | None => ret tt
       end ;;
  late <- dequeue None (sample_clock + 9000000) ;;
  requeued <- requeue (sample_clock + 9000000) "a" ;;
  row <- get "a" ;;
  ret ([first; early; second; late], requeued, row).

(** A table with two scheduled jobs: the [run_at] of [a] is past at
    [sample_clock], the one of [b], of higher priority, is not. *)
Definition sample_scheduled_table : store :=
  [ sample_pending "a" "2026-11-03T11:00:00Z" 0 (Some "2020-01-01T00:00:00Z");
    sample_pending "b" "2026-11-03T10:00:00Z" 5 (Some "2030-01-01T00:00:00Z") ].

(** ** The candidates of a claim *)

(** The rows a claim chooses from, in the words of the specification: the
    state is [pending] and [run_at] is null or not after [now].  Both are
    TEXT values, and "not after" is the order of TEXT values, byte by
    byte. *)
Definition pending_and_due (now : string) (r : job) : Prop :=
  state r = pending /\
  (run_at r = None \/ exists t, run_at r = Some t /\ String.leb t now = true).

(** ** The engine can refuse a call *)

(** What the sqlite engine does to one call of a repository method: the
    exception it raises before the parameters of the statement are bound,
    if it raises one there (while [get_connection] opens and configures the
    connection or while the statement is compiled: the file cannot be
    opened, the database is locked, the table is missing), and the
    exception it raises after that, while the statement runs or the
    transaction commits, if it raises one there (the database is locked by
    another process, the disk is full).  A refused call leaves the table as
    it was. *)
Record db_call : Type := {
  fault_before_bind : option exn;
  fault_after_bind : option exn
}.

(** The engine carries the call out. *)
Definition no_fault : db_call :=
  {| fault_before_bind := None; fault_after_bind := None |}.

(** The exception of a refused call. *)
Definition first_fault (db : db_call) : option exn :=
  match fault_before_bind db with
  | Some e => Some e
  | None => fault_after_bind db
  end.

(** The range of an SQLite INTEGER.  [execute] raises [OverflowError] when
    one of its parameters is a Python int outside of it. *)
Definition int64 (z : Z) : bool :=
  (-9223372036854775808 <=? z) && (z <=? 9223372036854775807).

(** [with get_connection() as conn: conn.execute(sql, params) ...]:
    the connection is opened and the statement compiled, then the
    parameters are bound ([ints] are those that are Python ints), then the
    statement [m] runs. *)
Definition guarded {A} (db : db_call) (ints : list Z) (m : M A) : M A :=
  match fault_before_bind db with
  | Some e => raise e
  | None =>
      if forallb int64 ints
      then match fault_after_bind db with
           | Some e => raise e
           | None => m
           end
      else raise (OverflowError "Python int too large to convert to SQLite INTEGER")
  end.

(** ** [list_jobs] *)

(** [ORDER BY created_at ASC] as a stable sort: a row is put before the
    first row that is not created earlier. *)
Fixpoint insert_by_created (r : job) (rows : list job) : list job :=
  match rows with
  | [] => [r]
  | x :: rest =>
      if String.leb (created_at r) (created_at x)
      then r :: x :: rest
      else x :: insert_by_created r rest
  end.

Fixpoint order_by_created (rows : list job) : list job :=
  match rows with
  | [] => []
  | r :: rest => insert_by_created r (order_by_created rest)
  end.

(** [LIMIT ?]: a negative limit is no limit. *)
Definition sql_limit (limit : Z) (rows : list job) : list job :=
  if limit <? 0 then rows else List.firstn (Z.to_nat limit) rows.

(** [SELECT * FROM jobs WHERE state = ? ORDER BY created_at ASC LIMIT ?].
    SQL leaves the order of rows with the same [created_at] to the engine,
    which may read the rows through an index.  [scan] is the order in
    which the engine meets the rows that match; rows created at the same
    second come out in that order.  As [scan] ranges over the orders of
    the rows, the result ranges over the results SQL allows. *)
Definition select_jobs (scan : list job -> list job) (st : job_state)
    (limit : Z) (s : store) : list job :=
  sql_limit limit
    (order_by_created (scan (List.filter (fun r => state_eqb (state r) st) s))).

(** How one turn of the loop of [Worker.run] ends. *)
Inductive turn : Type :=
| processed (job_id : string)   (* a job was claimed and [process_job] returned *)
| slept                         (* [time.sleep(poll_interval)] *)
| handled (e : exn).            (* the top-level [except] clause ran *)

(** ** The methods, with an engine that can refuse *)

Module Engine.

(** [SQLiteJobRepository.add]: [max_retries] and [priority] are bound as
    Python ints. *)
Definition add (db : db_call) (job_id : string) (clock : Z) (command : string)
    (max_retries priority : Z) (run_at : option string) : M string :=
  guarded db [max_retries; priority]
    (add job_id clock command max_retries priority run_at).

(** [SQLiteJobRepository.get] *)
Definition get (db : db_call) (job_id : string) : M (option job) :=
  guarded db [] (get job_id).

(** [SQLiteJobRepository.list_jobs]: [limit] is bound as a Python int. *)
Definition list_jobs (db : db_call) (scan : list job -> list job)
    (st : job_state) (limit : Z) : M (list job) :=
  guarded db [limit] (fun s => (inr (select_jobs scan st limit s), s)).

(** [SQLiteJobRepository.update_state] *)
Definition update_state (db : db_call) (clock : Z) (job_id : string)
    (st : job_state) (out err ra : option string) : M unit :=
  guarded db [] (update_state clock job_id st out err ra).

(** [SQLiteJobRepository.requeue] *)
Definition requeue (db : db_call) (clock : Z) (job_id : string) : M bool :=
  guarded db [] (requeue clock job_id).

(** [SQLiteJobRepository.dequeue]: the method catches
    [sqlite3.OperationalError] itself. *)
Definition dequeue (db : db_call) (clock : Z) : M (option job) :=
  dequeue (first_fault db) clock.

(** [core.complete_job] *)
Definition complete_job (db : db_call) (clock : Z) (j : job)
    (out err : string) : M unit :=
  update_state db clock (id j) completed (Some out) (Some err) None.

(** [core.fail_job]: the backoff is computed before the repository is
    called. *)
Definition fail_job (db : db_call) (config : WorkerConfig) (rd : readings)
    (j : job) (err : string) : M unit :=
  if attempts j >=? max_retries j
  then update_state db (now_update rd) (id j) dead None (Some err) None
  else
    p <- lift (calculate_backoff config rd j) ;;
    update_state db (now_update rd) (id j) pending None (Some err) (Some (snd p)).

(** [Worker.process_job].  [db] and [rd] are what the call made in the
    [try] body meets, [db'] and [rd'] what the call made in an [except]
    clause meets: [except Exception] also catches what the repository
    raises in the body. *)
Definition process_job (db db' : db_call) (config : WorkerConfig)
    (rd rd' : readings) (j : job) (res : run_result) : M unit :=
  try_except
    match res with
    | Raised e => raise e
    | Returned returncode out err =>
        if returncode =? 0
        then complete_job db (now_update rd) j out err
        else fail_job db config rd j
               (if String.eqb err "" then "Job failed with non-zero exit code"
                else err)
    end
    (fun e =>
       match e with
       | TimeoutExpired _ =>
           fail_job db' config rd' j
             ("Job timed out after " ++ show JOB_TIMEOUT_SECONDS ++ "s.")
       | _ =>
           fail_job db' config rd' j ("Subprocess execution failed: " ++ str e)
       end).

(** One turn of the [while] loop of [Worker.run].  [db0] and [clock] are
    what [dequeue] meets, [run] is what [subprocess.run] does with a
    command, [db], [db'], [rd] and [rd'] are what [process_job] meets, and
    [db''] and [rd''] what the [fail_job] of the top-level handler meets.
    An exception of [dequeue] leaves [job] at [None] and the handler does
    nothing more than print. *)
Definition run_turn (config : WorkerConfig) (db0 : db_call) (clock : Z)
    (run : string -> run_result) (db db' db'' : db_call)
    (rd rd' rd'' : readings) : M turn :=
  fun s =>
    match dequeue db0 clock s with
    | (inl e, s1) => (inr (handled e), s1)
    | (inr None, s1) => (inr slept, s1)
    | (inr (Some j), s1) =>
        match process_job db db' config rd rd' j (run (command j)) s1 with
        | (inr _, s2) => (inr (processed (id j)), s2)
        | (inl e, s2) =>
            match fail_job db'' config rd'' j (str e) s2 with
            | (inr _, s3) => (inr (handled e), s3)
            | (inl e', s3) => (inl e', s3)
            end
        end
    end.

End Engine.

(** ** The environment of the process *)

(** What the command of a job does, as a function of the environment it
    runs in.  [subprocess.run(job['command'], shell=True, ...)] is called
    without [env=]: the shell inherits [os.environ] of the worker. *)
Definition child_process : Type := gmap string string -> string -> run_result.

(** A call of a method of the repository, of a function of [core.py] or of
    the worker, with its arguments and with what it meets. *)
Inductive core_op : Type :=
| op_add (db : db_call) (job_id : string) (clock : Z) (command : string)
    (max_retries priority : Z) (run_at : option string)
| op_get (db : db_call) (job_id : string)
| op_list_jobs (db : db_call) (scan : list job -> list job) (st : job_state)
    (limit : Z)
| op_update_state (db : db_call) (clock : Z) (job_id : string) (st : job_state)
    (out err ra : option string)
| op_requeue (db : db_call) (clock : Z) (job_id : string)
| op_dequeue (db : db_call) (clock : Z)
| op_complete_job (db : db_call) (clock : Z) (j : job) (out err : string)
| op_fail_job (db : db_call) (config : WorkerConfig) (rd : readings) (j : job)
    (err : string)
| op_process_job (db db' : db_call) (config : WorkerConfig) (rd rd' : readings)
    (j : job)
| op_run_turn (config : WorkerConfig) (db0 : db_call) (clock : Z)
    (db db' db'' : db_call) (rd rd' rd'' : readings).


(** What a call returns. *)
Inductive answer : Type :=
| job_id_of (job_id : string)
| row_of (r : option job)
| rows_of (rows : list job)
| bool_of (b : bool)
| nothing
| turn_of (t : turn).

(** The call [op] in a process whose environment is [environ], on the table
    of the database it has opened. *)
Definition perform (child : child_process) (environ : gmap string string)
    (op : core_op) : M answer :=
  match op with
  | op_add db job_id clock command max_retries priority run_at =>
      x <- Engine.add db job_id clock command max_retries priority run_at ;;
      ret (job_id_of x)
  | op_get db job_id => x <- Engine.get db job_id ;; ret (row_of x)
  | op_list_jobs db scan st limit =>
      x <- Engine.list_jobs db scan st limit ;; ret (rows_of x)
  | op_update_state db clock job_id st out err ra =>
      _ <- Engine.update_state db clock job_id st out err ra ;; ret nothing
  | op_requeue db clock job_id =>
      x <- Engine.requeue db clock job_id ;; ret (bool_of x)
  | op_dequeue db clock => x <- Engine.dequeue db clock ;; ret (row_of x)
  | op_complete_job db clock j out err =>
      _ <- Engine.complete_job db clock j out err ;; ret nothing
  | op_fail_job db config rd j err =>
      _ <- Engine.fail_job db config rd j err ;; ret nothing
  | op_process_job db db' config rd rd' j =>
      _ <- Engine.process_job db db' config rd rd' j (child environ (command j)) ;;
      ret nothing
  | op_run_turn config db0 clock db db' db'' rd rd' rd'' =>
      x <- Engine.run_turn config db0 clock (child environ) db db' db'' rd rd' rd'' ;;
      ret (turn_of x)
  end.

(** The call [op] in a process whose environment is [environ], on the
    databases of the machine. *)
Definition run_op (child : child_process) (environ : gmap string string)
    (op : core_op) (files : gmap string store)
    : option ((exn + answer) * gmap string store) :=
  run_core environ (perform child environ op) files.

(** A command whose output is the value of the variable [GREETING] of its
    environment. *)
Definition echo_greeting : child_process :=
  fun environ _ => Returned 0 (default "" (environ !! "GREETING")) "".

(** ** Claims in a row *)

(** [n] calls of [dequeue] in a row at the same clock reading, until one
    finds nothing: the jobs claimed, in the order of the claims. *)
Fixpoint claim_repeatedly (n : nat) (clock : Z) : M (list job) :=
  match n with
  | O => ret []
  | S k =>
      r <- dequeue None clock ;;
      match r with
      | Some j => rest <- claim_repeatedly k clock ;; ret (j :: rest)
      | None => ret []
      end
  end.

(** ** Invariants *)

(** The row invariant of the attempt counter. *)
Definition attempts_ok (r : job) : Prop :=
  0 <= attempts r /\ (state r = processing -> 1 <= attempts r).

(** [a] is created no later than [b], in the order of the TEXT column. *)
Definition created_le (a b : job) : Prop :=
  String.leb (created_at a) (created_at b) = true.

(** ** The order of timestamps *)

(** The date of a day (counted from 1970-01-01) as one number,
    [yyyymmdd]. *)
Definition date_number (days : Z) : Z :=
  let '(y, m, d) := civil_from_days days in (y * 100 + m) * 100 + d.

(** A check of [n] consecutive days from day [z] of the 400-year cycle that
    begins on 0000-03-01, [prev] being the date of the day before: every
    day has a month in [1 .. 12], a day of the month in [1 .. 31] and a
    date later than the one of the day before. *)
Fixpoint cycle_days_ok (n : nat) (z prev : Z) : bool :=
  match n with
  | O => true
  | S k =>
      let '(y, m, d) := civil_from_days (z - 719468) in
      let cur := (y * 100 + m) * 100 + d in
      (1 <=? m) && (m <=? 12) && (1 <=? d) && (d <=? 31) && (prev <? cur) &&
      cycle_days_ok k (z + 1) cur
  end.

(** The first and the last second that [datetime] can hold. *)
Definition first_second : Z := -62135596800.
Definition last_second : Z := 253402300799.

(** The first second of the year 1000: from there on Python and SQLite
    print the same text. *)
Definition first_second_1000 : Z := -30610224000.

(** The text of a timestamp from its fields, the year on four digits. *)
Definition iso_format (y m d h mi s : Z) : string :=
  (digits4 y ++ "-" ++ digits2 m ++ "-" ++ digits2 d ++ "T" ++
   digits2 h ++ ":" ++ digits2 mi ++ ":" ++ digits2 s ++ "Z")%string.

(** Comparison of two lists of numbers, field by field. *)
Fixpoint lex_compare (l1 l2 : list Z) : comparison :=
  match l1, l2 with
  | x :: r1, y :: r2 =>
      match x ?= y with
      | Eq => lex_compare r1 r2
      | c => c
      end
  | _, _ => Eq
  end.

(** Whether [show] and [digits4] print the same text for the [n] years
    from [y] on. *)
Fixpoint years_agree (n : nat) (y : Z) : bool :=
  match n with
  | O => true
  | S k => String.eqb (show y) (digits4 y) && years_agree k (y + 1)
  end.
(** * Properties *)

(** ** The order on TEXT values *)

Lemma string_compare_refl a : String.compare a a = Eq.
Proof. apply String_as_OT.cmp_eq. reflexivity. Qed.

Lemma string_ltb_leb a b : String.ltb a b = negb (String.leb b a).
Proof.
  unfold String.ltb, String.leb.
  rewrite (String.compare_antisym b a).
  destruct (String.compare a b); reflexivity.
Qed.

Lemma string_leb_refl a : String.leb a a = true.
Proof. unfold String.leb. rewrite string_compare_refl. reflexivity. Qed.

Lemma string_leb_trans a b c :
  String.leb a b = true -> String.leb b c = true -> String.leb a c = true.
Proof.
  unfold String.leb.
  destruct (String.compare a b) eqn:Hab; try discriminate;
    destruct (String.compare b c) eqn:Hbc; try discriminate; intros _ _.
  - apply String.compare_eq_iff in Hab. subst b. rewrite Hbc. reflexivity.
  - apply String.compare_eq_iff in Hab. subst b. rewrite Hbc. reflexivity.
  - apply String.compare_eq_iff in Hbc. subst c. rewrite Hab. reflexivity.
  - assert (Hac : String.compare a c = Lt).
    { apply String_as_OT.cmp_lt.
      apply String_as_OT.lt_trans with b; apply String_as_OT.cmp_lt; assumption. }
    rewrite Hac. reflexivity.
Qed.

(** ** The order of the inner [SELECT] *)

(** [k] does not come strictly before [b]: [b] has the higher priority, or
    the same and a creation time that is not later. *)
Lemma sorts_before_false k b :
  sorts_before k b = false <->
  priority k < priority b \/
  (priority k = priority b /\ String.leb (created_at b) (created_at k) = true).
Proof.
  unfold sorts_before. rewrite string_ltb_leb.
  destruct (Z.ltb_spec (priority b) (priority k)) as [Hlt | Hge];
    destruct (Z.eqb_spec (priority k) (priority b)) as [Heq | Hne];
    destruct (String.leb (created_at b) (created_at k)); simpl;
    split; intros H; try discriminate; try reflexivity; try lia;
    try (destruct H as [H | [H1 H2]]; try lia; discriminate).
Qed.

Lemma sorts_before_irrefl r : sorts_before r r = false.
Proof. apply sorts_before_false. right. split; [reflexivity | apply string_leb_refl]. Qed.

Lemma sorts_before_asym a b : sorts_before a b = true -> sorts_before b a = false.
Proof.
  intros H. apply sorts_before_false.
  unfold sorts_before in H. rewrite string_ltb_leb in H.
  apply orb_true_iff in H. destruct H as [H | H].
  - left. apply Z.ltb_lt in H. exact H.
  - apply andb_true_iff in H. destruct H as [H1 H2].
    apply Z.eqb_eq in H1. apply negb_true_iff in H2.
    right. split; [symmetry; exact H1 |].
    destruct (String.leb_total (created_at a) (created_at b)) as [Hl | Hl];
      [exact Hl | congruence].
Qed.

(** If [k] does not precede [b] and [b] does not precede [r], then [k] does
    not precede [r]. *)
Lemma sorts_before_false_trans k b r :
  sorts_before k b = false -> sorts_before b r = false -> sorts_before k r = false.
Proof.
  rewrite !sorts_before_false.
  intros [H1 | [H1 L1]] [H2 | [H2 L2]]; try (left; lia).
  right. split; [lia |]. eapply string_leb_trans; eassumption.
Qed.

(** [first_row] returns a row of the list that no row of the list
    precedes. *)
Lemma first_row_spec rows :
  match first_row rows with
  | Some b => In b rows /\ forall k, In k rows -> sorts_before k b = false
  | None => rows = []
  end.
Proof.
  induction rows as [| r rest IH]; simpl; [reflexivity |].
  destruct (first_row rest) as [b |].
  - destruct IH as [Hin Hbest].
    destruct (sorts_before b r) eqn:Hbr.
    + split; [right; exact Hin |].
      intros k [Hk | Hk]; [subst k; apply sorts_before_asym; exact Hbr | apply Hbest; exact Hk].
    + split; [left; reflexivity |].
      intros k [Hk | Hk]; [subst k; apply sorts_before_irrefl |].
      eapply sorts_before_false_trans; [apply Hbest; exact Hk | exact Hbr].
  - subst rest. split; [left; reflexivity |].
    intros k [Hk | []]. subst k. apply sorts_before_irrefl.
Qed.

(** ** Rows and their ids *)

Lemma has_id_true i r : has_id i r = true <-> id r = i.
Proof. unfold has_id. apply String.eqb_eq. Qed.

Lemma has_id_false i r : has_id i r = false <-> id r <> i.
Proof. unfold has_id. apply String.eqb_neq. Qed.

(** Under the primary key an id selects one row. *)
Lemma filter_has_id s b :
  primary_key s -> In b s -> List.filter (has_id (id b)) s = [b].
Proof.
  unfold primary_key. induction s as [| a s IH]; simpl; intros Hnd Hin; [contradiction |].
  inversion Hnd as [| x l Hnotin Hnd']; subst.
  destruct Hin as [Heq | Hin].
  - subst a. assert (Hb : has_id (id b) b = true) by (apply has_id_true; reflexivity).
    rewrite Hb. f_equal.
    clear IH Hnd Hnd' Hb. induction s as [| c s IHs]; simpl; [reflexivity |].
    destruct (has_id (id b) c) eqn:Hc.
    + exfalso. apply Hnotin. left. apply has_id_true. exact Hc.
    + apply IHs. intros H. apply Hnotin. right. exact H.
  - assert (Ha : has_id (id b) a = false).
    { apply has_id_false. intros Heq. apply Hnotin. rewrite Heq.
      apply in_map. exact Hin. }
    rewrite Ha. apply IH; assumption.
Qed.

Lemma find_has_id s b :
  primary_key s -> In b s -> List.find (has_id (id b)) s = Some b.
Proof.
  unfold primary_key. induction s as [| a s IH]; simpl; intros Hnd Hin; [contradiction |].
  inversion Hnd as [| x l Hnotin Hnd']; subst.
  destruct Hin as [Heq | Hin].
  - subst a. assert (Hb : has_id (id b) b = true) by (apply has_id_true; reflexivity).
    rewrite Hb. reflexivity.
  - assert (Ha : has_id (id b) a = false).
    { apply has_id_false. intros Heq. apply Hnotin. rewrite Heq.
      apply in_map. exact Hin. }
    rewrite Ha. apply IH; assumption.
Qed.

(** An [UPDATE] whose [SET] clause keeps the id: looking a row up after the
    update is updating the row looked up before. *)
Lemma find_sql_update i cond set s :
  (forall r, id (set r) = id r) ->
  List.find (has_id i) (sql_update cond set s) =
  option_map (fun r => if cond r then set r else r) (List.find (has_id i) s).
Proof.
  intros Hid. induction s as [| a s IH]; simpl; [reflexivity |].
  assert (Hsame : has_id i (if cond a then set a else a) = has_id i a).
  { unfold has_id. destruct (cond a); [rewrite Hid |]; reflexivity. }
  rewrite Hsame. destruct (has_id i a); [reflexivity | exact IH].
Qed.

Lemma sql_update_ids cond set s :
  (forall r, id (set r) = id r) ->
  List.map id (sql_update cond set s) = List.map id s.
Proof.
  intros Hid. unfold sql_update. rewrite List.map_map.
  apply List.map_ext. intros r. destruct (cond r); [apply Hid | reflexivity].
Qed.

Lemma sql_update_none cond set s :
  (forall r, In r s -> cond r = false) -> sql_update cond set s = s.
Proof.
  intros H. unfold sql_update. induction s as [| a s IH]; simpl; [reflexivity |].
  rewrite (H a) by (left; reflexivity).
  f_equal. apply IH. intros r Hr. apply H. right. exact Hr.
Qed.

Lemma find_sql_update_other i cond set s :
  (forall r, id (set r) = id r) ->
  (forall r, cond r = true -> id r <> i) ->
  List.find (has_id i) (sql_update cond set s) = List.find (has_id i) s.
Proof.
  intros Hid Hother. rewrite find_sql_update by exact Hid.
  destruct (List.find (has_id i) s) as [r |] eqn:Hfind; simpl; [| reflexivity].
  apply List.find_some in Hfind. destruct Hfind as [_ Hr].
  destruct (cond r) eqn:Hc; [| reflexivity].
  exfalso. apply (Hother r Hc). apply has_id_true. exact Hr.
Qed.

(** ** [dequeue] *)

Lemma eligible_spec now r :
  eligible now r = true <->
  state r = pending /\ (forall t, run_at r = Some t -> String.leb t now = true).
Proof.
  unfold eligible. rewrite andb_true_iff. split.
  - intros [Hst Hrun]. split.
    + destruct (state r); try discriminate; reflexivity.
    + intros t Ht. rewrite Ht in Hrun. exact Hrun.
  - intros [Hst Hrun]. rewrite Hst. split; [reflexivity |].
    destruct (run_at r) as [t |]; [apply Hrun |]; reflexivity.
Qed.

Lemma set_claimed_id now r : id (set_claimed now r) = id r.
Proof. reflexivity. Qed.

(** The statement of [dequeue] on a table that satisfies the primary key:
    it touches nothing when no row is eligible, and otherwise claims one
    eligible row that no eligible row precedes, and returns it alone. *)
Lemma golden_query_spec now s :
  primary_key s ->
  ((forall k, In k s -> eligible now k = false) /\ golden_query now s = (s, []))
  \/
  (exists b,
     In b s /\ eligible now b = true /\
     (forall k, In k s -> eligible now k = true -> sorts_before k b = false) /\
     golden_query now s =
       (sql_update (has_id (id b)) (set_claimed now) s, [set_claimed now b])).
Proof.
  intros PK. unfold golden_query.
  pose proof (first_row_spec (List.filter (eligible now) s)) as Hfirst.
  destruct (first_row (List.filter (eligible now) s)) as [b |].
  - right. destruct Hfirst as [Hin Hbest].
    apply List.filter_In in Hin. destruct Hin as [Hin Hel].
    exists b. split; [exact Hin |]. split; [exact Hel |]. split.
    + intros k Hk Hkel. apply Hbest. apply List.filter_In. split; assumption.
    + unfold sql_updated. rewrite (filter_has_id s b PK Hin). reflexivity.
  - left. split; [| reflexivity].
    intros k Hk. destruct (eligible now k) eqn:Hel; [| reflexivity].
    assert (Hk' : In k (List.filter (eligible now) s))
      by (apply List.filter_In; split; assumption).
    rewrite Hfirst in Hk'. contradiction.
Qed.

(** C1, as stated, fails in its last sentence: [add] stores any string as
    [run_at], and the claim compares it with [now] as TEXT.  A job whose
    [run_at] is 18:00 of the day, written with a space between date and
    time as SQLite's [datetime()] writes it, is claimed at 12:00 of that
    day, and the row returned still carries that [run_at]. *)
Lemma C1_counterexample :
  let j := sample_pending "late" "2026-11-03T11:00:00Z" 0
             (Some "2026-11-03 18:00:00") in
  sql_now sample_clock = "2026-11-03T12:00:00Z" /\
  String.leb "2026-11-03 18:00:00" "2026-11-03T12:00:00Z" = true /\
  exists j',
    dequeue None sample_clock [j] = (inr (Some j'), [j']) /\
    state j' = processing /\
    run_at j' = Some "2026-11-03 18:00:00".
Proof.
  cbv zeta. split; [vm_compute; reflexivity |]. split; [vm_compute; reflexivity |].
  eexists. split; [vm_compute; reflexivity |]. split; reflexivity.
Qed.

(** C1 (amended): "not in the future" is the order of TEXT values.  On
    every table, [dequeue] (with no fault of the engine) either finds no
    row that is pending with [run_at] null or not after [now] as TEXT, and
    then returns [None] and leaves the table as it is; or it claims a row
    [j] that is pending with [run_at] null or not after [now], such that
    every such row has a priority not above the one of [j], and a creation
    time not before the one of [j] when the priorities are equal.  It then
    returns the row as updated: state [processing], [attempts] one more
    than before, [updated_at] refreshed to [now]; that row is the one
    stored under the id, the rows of other ids are as before, and the
    [run_at] of the returned row is null or not after [now] as TEXT. *)
Theorem C1_dequeue_claims_best (clock : Z) (s : store) :
  primary_key s ->
  let now := sql_now clock in
  ((forall k, In k s -> ~ pending_and_due now k) /\
   dequeue None clock s = (inr None, s))
  \/
  (exists j s',
     In j s /\ pending_and_due now j /\
     (forall k, In k s -> pending_and_due now k ->
        priority k <= priority j /\
        (priority k = priority j ->
         String.leb (created_at j) (created_at k) = true)) /\
     dequeue None clock s = (inr (Some (set_claimed now j)), s') /\
     List.find (has_id (id j)) s' = Some (set_claimed now j) /\
     (forall i, i <> id j -> List.find (has_id i) s' = List.find (has_id i) s) /\
     state (set_claimed now j) = processing /\
     attempts (set_claimed now j) = attempts j + 1 /\
     updated_at (set_claimed now j) = now /\
     (forall t, run_at (set_claimed now j) = Some t -> String.leb t now = true)).
Proof.
  intros PK now.
  assert (Hdue : forall k, pending_and_due now k <-> eligible now k = true).
  { intros k. rewrite eligible_spec. unfold pending_and_due. split.
    - intros [Hst [Hnone | [t [Ht Hle]]]]; split; try exact Hst.
      + intros t Ht. congruence.
      + intros t' Ht'. congruence.
    - intros [Hst Hrun]. split; [exact Hst |].
      destruct (run_at k) as [t |] eqn:Hra.
      + right. exists t. split; [reflexivity | apply Hrun; reflexivity].
      + left. reflexivity. }
  destruct (golden_query_spec now s PK) as [[Hnone Hq] | [b [Hin [Hel [Hbest Hq]]]]].
  - left. split.
    + intros k Hk Hd. apply Hdue in Hd. rewrite (Hnone k Hk) in Hd. discriminate Hd.
    + unfold dequeue. fold now. rewrite Hq. reflexivity.
  - right. pose proof Hel as Hel'. apply eligible_spec in Hel'.
    destruct Hel' as [Hst Hrun].
    exists b, (sql_update (has_id (id b)) (set_claimed now) s).
    split; [exact Hin |]. split; [apply Hdue; exact Hel |].
    split; [| split; [| split; [| split]]].
    + intros k Hk Hkel. apply Hdue in Hkel. specialize (Hbest k Hk Hkel).
      apply sorts_before_false in Hbest.
      split; [lia |]. intros Heq. destruct Hbest as [Hlt | [_ Hle]]; [lia | exact Hle].
    + unfold dequeue. fold now. rewrite Hq. reflexivity.
    + rewrite find_sql_update by apply set_claimed_id.
      rewrite (find_has_id s b PK Hin). simpl.
      assert (Hb : has_id (id b) b = true) by (apply has_id_true; reflexivity).
      rewrite Hb. reflexivity.
    + intros i Hi. apply find_sql_update_other; [apply set_claimed_id |].
      intros r Hr. apply has_id_true in Hr. congruence.
    + split; [reflexivity |]. split; [reflexivity |]. split; [reflexivity |].
      exact Hrun.
Qed.

Lemma sample_table_primary_key : primary_key sample_table.
Proof.
  unfold primary_key, sample_table. simpl.
  repeat constructor; simpl; intuition discriminate.
Defined.

Lemma sample_scheduled_table_primary_key : primary_key sample_scheduled_table.
Proof.
  unfold primary_key, sample_scheduled_table. simpl.
  repeat constructor; simpl; intuition discriminate.
Defined.

Lemma C1_dequeue_claims_best_witness :
  primary_key sample_scheduled_table /\
  exists s',
    let a := sample_pending "a" "2026-11-03T11:00:00Z" 0
               (Some "2020-01-01T00:00:00Z") in
    dequeue None sample_clock sample_scheduled_table =
      (inr (Some (set_claimed (sql_now sample_clock) a)), s') /\
    run_at (set_claimed (sql_now sample_clock) a) = Some "2020-01-01T00:00:00Z" /\
    attempts (set_claimed (sql_now sample_clock) a) = attempts a + 1.
Proof.
  split; [exact sample_scheduled_table_primary_key |].
  destruct (C1_dequeue_claims_best sample_clock sample_scheduled_table
              sample_scheduled_table_primary_key)
    as [[Hnone _] | [j [s' [Hin [Hdue [_ [Hdq [_ [_ [_ [Hatt _]]]]]]]]]]].
  - exfalso.
    apply (Hnone (sample_pending "a" "2026-11-03T11:00:00Z" 0
                    (Some "2020-01-01T00:00:00Z"))).
    + left. reflexivity.
    + split; [reflexivity |]. right. eexists. split; [reflexivity |].
      vm_compute. reflexivity.
  - exists s'. cbv zeta.
    destruct Hin as [Hj | [Hj | []]]; subst j.
    + split; [exact Hdq |]. split; [reflexivity | exact Hatt].
    + exfalso. destruct Hdue as [_ [Hn | [t [Ht Hle]]]].
      * discriminate Hn.
      * injection Ht as Ht. subst t. vm_compute in Hle. discriminate Hle.
Defined.




(** C8: when the engine raises [sqlite3.OperationalError] during the claim
    (the database is locked), [dequeue] returns [None], raises nothing and
    leaves the table as it was. *)
Theorem C8_contention_returns_empty (msg : string) (clock : Z) (s : store) :
  dequeue (Some (OperationalError msg)) clock s = (inr None, s).
Proof. reflexivity. Qed.

(** ** [requeue] *)

Lemma set_requeued_id now r : id (set_requeued now r) = id r.
Proof. reflexivity. Qed.

Lemma filter_nil_false {A} (p : A -> bool) (l : list A) :
  List.filter p l = [] -> forall x, In x l -> p x = false.
Proof.
  intros Hnil x Hx. destruct (p x) eqn:Hp; [| reflexivity].
  assert (Hin : In x (List.filter p l)) by (apply List.filter_In; split; assumption).
  rewrite Hnil in Hin. contradiction.
Qed.

(** C3: [requeue] of an id returns [False] and leaves the table as it is
    when no row of that id is dead (the id is absent, or its row is in
    another state); otherwise a row of that id is dead, [requeue] returns
    [True], and the row stored under the id afterwards is pending with
    [attempts] 0 and [run_at], [stdout] and [stderr] null, its other columns
    but [updated_at] as before; rows of other ids are as before.  No case
    raises. *)
Theorem C3_requeue (clock : Z) (job_id : string) (s : store) :
  primary_key s ->
  ((forall r, In r s -> id r = job_id -> state r <> dead) /\
   requeue clock job_id s = (inr false, s))
  \/
  (exists j s' j',
     In j s /\ id j = job_id /\ state j = dead /\
     requeue clock job_id s = (inr true, s') /\
     List.find (has_id job_id) s' = Some j' /\
     state j' = pending /\ attempts j' = 0 /\
     run_at j' = None /\ stdout j' = None /\ stderr j' = None /\
     id j' = job_id /\ command j' = command j /\
     max_retries j' = max_retries j /\ priority j' = priority j /\
     created_at j' = created_at j /\ updated_at j' = get_iso_now clock /\
     (forall i, i <> job_id -> List.find (has_id i) s' = List.find (has_id i) s)).
Proof.
  intros PK. unfold requeue, sql_updated.
  set (now := get_iso_now clock).
  set (cond := fun r : job => has_id job_id r && state_eqb (state r) dead).
  destruct (List.filter cond s) as [| j rest] eqn:Hf.
  - left. pose proof (filter_nil_false cond s Hf) as Hfalse. split.
    + intros r Hr Hid Hst. specialize (Hfalse r Hr). unfold cond in Hfalse.
      apply has_id_true in Hid. rewrite Hid, Hst in Hfalse. discriminate Hfalse.
    + simpl. rewrite sql_update_none by exact Hfalse. reflexivity.
  - right.
    assert (Hj : In j (List.filter cond s)) by (rewrite Hf; left; reflexivity).
    apply List.filter_In in Hj. destruct Hj as [Hin Hc].
    unfold cond in Hc. apply andb_true_iff in Hc. destruct Hc as [Hid Hst].
    apply has_id_true in Hid.
    assert (Hdead : state j = dead) by (destruct (state j); try discriminate; reflexivity).
    subst job_id.
    exists j, (sql_update cond (set_requeued now) s), (set_requeued now j).
    split; [exact Hin |]. split; [reflexivity |]. split; [exact Hdead |].
    split; [reflexivity |]. split.
    + rewrite find_sql_update by apply set_requeued_id.
      rewrite (find_has_id s j PK Hin). simpl.
      unfold cond. rewrite Hdead.
      assert (Hb : has_id (id j) j = true) by (apply has_id_true; reflexivity).
      rewrite Hb. reflexivity.
    + simpl. repeat (split; [reflexivity |]).
      intros i Hi. apply find_sql_update_other; [apply set_requeued_id |].
      intros r Hr. unfold cond in Hr. apply andb_true_iff in Hr.
      destruct Hr as [Hr _]. apply has_id_true in Hr. congruence.
Qed.

Lemma C3_requeue_witness :
  primary_key sample_dead_table /\
  exists s' j',
    requeue sample_clock "d" sample_dead_table = (inr true, s') /\
    List.find (has_id "d") s' = Some j' /\
    state j' = pending /\ attempts j' = 0 /\
    run_at j' = None /\ stdout j' = None /\ stderr j' = None.
Proof.
  assert (PK : primary_key sample_dead_table).
  { unfold primary_key, sample_dead_table. simpl.
    repeat constructor; simpl; intuition discriminate. }
  split; [exact PK |].
  destruct (C3_requeue sample_clock "d" sample_dead_table PK)
    as [[Hnone _] | [j [s' [j' [_ [_ [_ [Hrun [Hfind [Hst [Hatt [Hra [Hout [Herr _]]]]]]]]]]]]]].
  - exfalso. apply (Hnone (sample_dead "d")); [right; left | |]; reflexivity.
  - exists s', j'. repeat (split; [assumption |]). assumption.
Defined.

(** ** [update_state] *)

(** C6: [update_state] never raises; it rewrites the rows of the given id
    and no other.  In a rewritten row [state], [updated_at] and [run_at]
    are the values supplied (the clock reading for [updated_at]), whatever
    they were; [stdout] and [stderr] are the values supplied when one is
    supplied and the stored ones when it is omitted; the other columns are
    as before. *)
Theorem C6_update_state (clock : Z) (job_id : string) (st : job_state)
    (out err ra : option string) (s : store) :
  exists s',
    update_state clock job_id st out err ra s = (inr tt, s') /\
    Forall2
      (fun r r' =>
         (id r <> job_id -> r' = r) /\
         (id r = job_id ->
            state r' = st /\ updated_at r' = get_iso_now clock /\ run_at r' = ra /\
            stdout r' = match out with Some v => Some v | None => stdout r end /\
            stderr r' = match err with Some v => Some v | None => stderr r end /\
            id r' = id r /\ command r' = command r /\ attempts r' = attempts r /\
            max_retries r' = max_retries r /\ priority r' = priority r /\
            created_at r' = created_at r))
      s s'.
Proof.
  eexists. split; [reflexivity |].
  unfold sql_update. induction s as [| r s IH]; simpl; constructor; [| exact IH].
  destruct (has_id job_id r) eqn:Hr.
  - apply has_id_true in Hr. split; [intros Hne; contradiction |].
    intros _. unfold set_state, coalesce; simpl.
    destruct out, err; repeat split; reflexivity.
  - apply has_id_false in Hr. split; [reflexivity | intros Heq; contradiction].
Qed.

Lemma C6_update_state_witness :
  exists s',
    update_state sample_clock "c" completed None (Some "warning") None sample_table =
      (inr tt, s') /\
    List.length s' = 3%nat.
Proof.
  destruct (C6_update_state sample_clock "c" completed None (Some "warning") None
              sample_table) as [s' [Hrun Hrows]].
  exists s'. split; [exact Hrun |].
  apply List.Forall2_length in Hrows. simpl in Hrows. symmetry. exact Hrows.
Defined.

(** ** The backoff policy *)

Lemma round_half_even_floor q :
  Qfloor q <= round_half_even q <= Qfloor q + 1.
Proof.
  unfold round_half_even.
  destruct (q - inject_Z (Qfloor q) ?= 1 # 2)%Q; [destruct (Z.even (Qfloor q)) | |]; lia.
Qed.

(** Rounding stays within half a unit. *)
Lemma round_half_even_near q :
  (Qabs (inject_Z (round_half_even q) - q) <= 1 # 2)%Q.
Proof.
  pose proof (Qfloor_le q) as Hlo. pose proof (Qlt_floor q) as Hhi.
  rewrite inject_Z_plus in Hhi. change (inject_Z 1) with 1%Q in Hhi.
  unfold round_half_even.
  destruct (q - inject_Z (Qfloor q) ?= 1 # 2)%Q eqn:Hc;
    [apply Qeq_alt in Hc; destruct (Z.even (Qfloor q))
    | apply Qlt_alt in Hc | apply Qgt_alt in Hc];
    rewrite ?inject_Z_plus; change (inject_Z 1) with 1%Q;
    apply Qabs_Qle_condition; split; lra.
Qed.

(** Rounding does not go below an integer that the number reaches. *)
Lemma round_half_even_ge (n : Z) (q : Q) :
  (inject_Z n <= q)%Q -> n <= round_half_even q.
Proof.
  intros H. apply Qfloor_resp_le in H. rewrite Qfloor_Z in H.
  pose proof (round_half_even_floor q). lia.
Qed.

(** Truncation to whole seconds. *)
Lemma second_of_bounds us :
  second_of us * 1000000 <= us < (second_of us + 1) * 1000000.
Proof. unfold second_of. Z.div_mod_to_equations. lia. Qed.

(** A delay of at least one second moves the instant into a later second. *)
Lemma second_of_later now delta :
  1000000 <= delta -> now < second_of (now + delta) * 1000000.
Proof. intros H. unfold second_of. Z.div_mod_to_equations. lia. Qed.

(** The jitter lies in [0.8, 1.2]. *)
Lemma uniform_jitter u :
  (0 <= u <= 1)%Q ->
  (8 # 10 <= uniform (8 # 10) (12 # 10) u <= 12 # 10)%Q.
Proof. intros [H0 H1]. unfold uniform. split; lra. Qed.

(** What a returning call of [calculate_backoff] computed. *)
Lemma calculate_backoff_inr config rd j d t :
  calculate_backoff config rd j = inr (d, t) ->
  let delta := round_half_even (d * 1000000) in
  d = (backoff_base config ^ attempts j *
       uniform (8 # 10) (12 # 10) (random_draw rd))%Q /\
  datetime_min <= now_backoff rd + delta <= datetime_max /\
  t = strftime_iso (second_of (now_backoff rd + delta)).
Proof.
  unfold calculate_backoff, float_pow, timedelta, datetime_add, and_then.
  destruct (Qeq_bool (backoff_base config) 0 && (attempts j <? 0)); [discriminate |].
  match goal with
  | |- context [if ?c then inr ?us else _] => destruct c; [| discriminate]
  end.
  match goal with
  | |- context [if ?c then inr ?x else _] => destruct c eqn:Hrange; [| discriminate]
  end.
  intros H. injection H as Hd Ht. subst d. cbv zeta.
  split; [reflexivity |]. split; [| symmetry; exact Ht].
  apply andb_true_iff in Hrange. destruct Hrange as [Hlo Hhi].
  apply Z.leb_le in Hlo. apply Z.leb_le in Hhi. split; assumption.
Qed.

(** With a base of at least 2 and one attempt or more, the delay is at
    least one second (it is at least 1.6 s). *)
Lemma backoff_delay_ge_1 (b u : Q) (n : Z) :
  (2 <= b)%Q -> 1 <= n -> (0 <= u <= 1)%Q ->
  (1 <= b ^ n * uniform (8 # 10) (12 # 10) u)%Q.
Proof.
  intros Hb Hn Hu.
  assert (Hpow : (2 <= b ^ n)%Q).
  { replace n with (1 + (n - 1)) by lia.
    assert (Hb0 : ~ (b == 0)%Q) by (intros E; rewrite E in Hb; lra).
    rewrite Qpower_plus by exact Hb0.
    assert (H1 : (1 <= b ^ (n - 1))%Q).
    { apply Qpower_1_le; [lra | lia]. }
    change (b ^ 1)%Q with b. nra. }
  pose proof (uniform_jitter u Hu) as [Hj _].
  nra.
Qed.

(** C5, as stated, fails for a negative base and an odd number of attempts:
    with base -2, one attempt and a jitter of 1 the delay is -2 seconds,
    which is not within [0.8 * (-2), 1.2 * (-2)]: it is below the first
    bound. *)
Lemma C5_counterexample :
  let config := {| backoff_base := -2 |} in
  let rd := sample_readings (1 # 2) in
  let j := sample_processing "a" 1 3 in
  0 <= attempts j /\ (0 <= random_draw rd <= 1)%Q /\
  exists d t,
    calculate_backoff config rd j = inr (d, t) /\
    (d == -2)%Q /\
    ~ ((8 # 10) * backoff_base config ^ attempts j <= d)%Q.
Proof.
  cbv zeta. split; [simpl; lia |]. split; [simpl; split; lra |].
  eexists. eexists. split; [vm_compute; reflexivity |].
  split; [reflexivity |].
  intros H. vm_compute in H. apply H. reflexivity.
Qed.

(** C5 (amended): when the power [base ^ attempts] is not negative (so for
    every base that is not negative) and the random draw lies in [0, 1],
    the delay that [calculate_backoff] returns lies within
    [0.8 * base ^ attempts, 1.2 * base ^ attempts]; and the timestamp it
    returns is the rendering, in the format of the store, of the whole
    second in which the instant [now + delay] falls, the delay being
    rounded to the microsecond. *)
Theorem C5_backoff_bounds (config : WorkerConfig) (rd : readings) (j : job)
    (d : Q) (t : string) :
  (0 <= random_draw rd <= 1)%Q ->
  (0 <= backoff_base config ^ attempts j)%Q ->
  calculate_backoff config rd j = inr (d, t) ->
  ((8 # 10) * backoff_base config ^ attempts j <= d /\
   d <= (12 # 10) * backoff_base config ^ attempts j)%Q /\
  exists delta sec,
    (Qabs (inject_Z delta - d * 1000000) <= 1 # 2)%Q /\
    sec * 1000000 <= now_backoff rd + delta < (sec + 1) * 1000000 /\
    t = strftime_iso sec.
Proof.
  intros Hu Hpow Hret.
  apply calculate_backoff_inr in Hret. cbv zeta in Hret.
  destruct Hret as [Hd [_ Ht]].
  split.
  - pose proof (uniform_jitter _ Hu) as [Hlo Hhi].
    rewrite Hd.
    set (p := (backoff_base config ^ attempts j)%Q) in *.
    set (jit := uniform (8 # 10) (12 # 10) (random_draw rd)) in *.
    split; nra.
  - exists (round_half_even (d * 1000000)),
           (second_of (now_backoff rd + round_half_even (d * 1000000))).
    split; [apply round_half_even_near |].
    split; [apply second_of_bounds | exact Ht].
Qed.

Lemma C5_backoff_bounds_witness :
  let config := {| backoff_base := 2 |} in
  let rd := sample_readings 0 in
  let j := sample_processing "a" 1 3 in
  (0 <= random_draw rd <= 1)%Q /\
  (0 <= backoff_base config ^ attempts j)%Q /\
  exists d,
    calculate_backoff config rd j = inr (d, "2026-11-03T12:00:01Z") /\
    ((8 # 10) * backoff_base config ^ attempts j <= d /\
     d <= (12 # 10) * backoff_base config ^ attempts j)%Q.
Proof.
  cbv zeta.
  assert (Hu : (0 <= random_draw (sample_readings 0) <= 1)%Q)
    by (simpl; split; lra).
  assert (Hp : (0 <= backoff_base {| backoff_base := 2 |} ^
                     attempts (sample_processing "a" 1 3))%Q)
    by (simpl; lra).
  split; [exact Hu |]. split; [exact Hp |].
  eexists. split; [vm_compute; reflexivity |].
  exact (proj1 (C5_backoff_bounds {| backoff_base := 2 |} (sample_readings 0)
                  (sample_processing "a" 1 3) _ _ Hu Hp eq_refl)).
Defined.

(** ** [fail_job] *)

Lemma find_update_state clock i st out err ra s :
  List.find (has_id i) (snd (update_state clock i st out err ra s)) =
  option_map (set_state st (get_iso_now clock) out err ra) (List.find (has_id i) s).
Proof.
  simpl. rewrite find_sql_update by reflexivity.
  destruct (List.find (has_id i) s) as [r |] eqn:Hfind; simpl; [| reflexivity].
  apply List.find_some in Hfind. destruct Hfind as [_ Hr].
  rewrite Hr. reflexivity.
Qed.

Lemma fail_job_dead config rd j err s :
  max_retries j <= attempts j ->
  fail_job config rd j err s =
  update_state (now_update rd) (id j) dead None (Some err) None s.
Proof.
  intros H. unfold fail_job.
  destruct (Z.geb_spec (attempts j) (max_retries j)); [reflexivity | lia].
Qed.

Lemma fail_job_retry config rd j err s d t :
  attempts j < max_retries j ->
  calculate_backoff config rd j = inr (d, t) ->
  fail_job config rd j err s =
  update_state (now_update rd) (id j) pending None (Some err) (Some t) s.
Proof.
  intros H Hret. unfold fail_job.
  destruct (Z.geb_spec (attempts j) (max_retries j)); [lia |].
  unfold bind, lift. rewrite Hret. reflexivity.
Qed.

(** When the backoff computation raises, so does [fail_job], and the table
    is left as it was. *)
Lemma fail_job_raises config rd j err s e :
  attempts j < max_retries j ->
  calculate_backoff config rd j = inl e ->
  fail_job config rd j err s = (inl e, s).
Proof.
  intros H Hret. unfold fail_job.
  destruct (Z.geb_spec (attempts j) (max_retries j)); [lia |].
  unfold bind, lift. rewrite Hret. reflexivity.
Qed.

(** C2, as stated, fails on the strict inequality: with base 1 the delay is
    between 0.8 s and 1.2 s, and [run_at] is cut to whole seconds.  A
    failure at 12:00:00.1 with a jitter of 0.8 is rescheduled at
    12:00:00.9, stored as 12:00:00: the second of the failure itself, which
    began before the failure. *)
Lemma C2_counterexample :
  let config := {| backoff_base := 1 |} in
  let rd := sample_readings 0 in
  let j := sample_processing "a" 1 3 in
  state j = processing /\ attempts j < max_retries j /\
  fail_job config rd j "boom" [j] =
    (inr tt,
     [ {| id := "a"; command := "false"; state := pending; attempts := 1;
          max_retries := 3; created_at := "2026-11-03T11:00:00Z";
          updated_at := "2026-11-03T12:00:00Z"; priority := 0;
          run_at := Some "2026-11-03T12:00:00Z";
          stdout := None; stderr := Some "boom" |} ]) /\
  get_iso_now (now_backoff rd) = "2026-11-03T12:00:00Z" /\
  strftime_iso 1793707200 = "2026-11-03T12:00:00Z" /\
  ~ (now_backoff rd < 1793707200 * 1000000).
Proof.
  cbv zeta. split; [reflexivity |]. split; [simpl; lia |].
  split; [vm_compute; reflexivity |]. split; [vm_compute; reflexivity |].
  split; [vm_compute; reflexivity |].
  unfold sample_readings, sample_clock. simpl. lia.
Qed.

(** C2 (amended): a failure reported for a job [j] (the row as [dequeue]
    returned it).  If [attempts >= max_retries], [fail_job] is the update
    that sets the state to [dead] and records [stderr], with [run_at]
    null; the stored row keeps its [stdout] and [attempts].  Otherwise,
    whenever the backoff computation returns a delay [d] and a timestamp
    [t], the delay is [base ^ attempts] (the attempts of [j]) times the
    jitter, [t] renders the whole second of [now + d], and [fail_job] is the
    update that sets the state to [pending], records [stderr] and sets
    [run_at] to [t]; that second begins strictly after the failure time as
    soon as the delay is at least one second. *)
Theorem C2_fail_job (config : WorkerConfig) (rd : readings) (j : job)
    (err : string) (s : store) :
  (max_retries j <= attempts j ->
   fail_job config rd j err s =
     update_state (now_update rd) (id j) dead None (Some err) None s /\
   forall r, List.find (has_id (id j)) s = Some r ->
     exists r',
       List.find (has_id (id j)) (snd (fail_job config rd j err s)) = Some r' /\
       state r' = dead /\ stderr r' = Some err /\ run_at r' = None /\
       stdout r' = stdout r /\ attempts r' = attempts r)
  /\
  (attempts j < max_retries j ->
   forall d t, calculate_backoff config rd j = inr (d, t) ->
     let next := now_backoff rd + round_half_even (d * 1000000) in
     d = (backoff_base config ^ attempts j *
          uniform (8 # 10) (12 # 10) (random_draw rd))%Q /\
     t = strftime_iso (second_of next) /\
     fail_job config rd j err s =
       update_state (now_update rd) (id j) pending None (Some err) (Some t) s /\
     (forall r, List.find (has_id (id j)) s = Some r ->
        exists r',
          List.find (has_id (id j)) (snd (fail_job config rd j err s)) = Some r' /\
          state r' = pending /\ stderr r' = Some err /\ run_at r' = Some t /\
          stdout r' = stdout r /\ attempts r' = attempts r) /\
     ((1 <= d)%Q -> now_backoff rd < second_of next * 1000000)).
Proof.
  split.
  - intros Hge. rewrite (fail_job_dead config rd j err s Hge).
    split; [reflexivity |].
    intros r Hr. rewrite find_update_state, Hr. simpl.
    eexists. split; [reflexivity |]. repeat split; reflexivity.
  - intros Hlt d t Hret next.
    rewrite (fail_job_retry config rd j err s d t Hlt Hret).
    pose proof (calculate_backoff_inr config rd j d t Hret) as Hb.
    cbv zeta in Hb. destruct Hb as [Hd [_ Ht]].
    split; [exact Hd |]. split; [exact Ht |]. split; [reflexivity |]. split.
    + intros r Hr. rewrite find_update_state, Hr. simpl.
      eexists. split; [reflexivity |]. repeat split; reflexivity.
    + intros H1. apply second_of_later. apply round_half_even_ge.
      change (inject_Z 1000000) with (1000000 # 1)%Q. lra.
Qed.

Lemma C2_fail_job_witness :
  let config := {| backoff_base := 2 |} in
  let rd := sample_readings 0 in
  let j := sample_processing "a" 1 3 in
  attempts j < max_retries j /\
  exists d,
    calculate_backoff config rd j = inr (d, "2026-11-03T12:00:01Z") /\
    (1 <= d)%Q /\
    now_backoff rd <
      second_of (now_backoff rd + round_half_even (d * 1000000)) * 1000000.
Proof.
  cbv zeta.
  assert (Hlt : attempts (sample_processing "a" 1 3) <
                max_retries (sample_processing "a" 1 3)) by (simpl; lia).
  split; [exact Hlt |].
  eexists. split; [vm_compute; reflexivity |].
  assert (H1 : (1 <= 2 ^ 1 * uniform (8 # 10) (12 # 10) 0)%Q)
    by (vm_compute; discriminate).
  split; [exact H1 |].
  exact (proj2 (proj2 (proj2 (proj2
           (proj2 (C2_fail_job {| backoff_base := 2 |} (sample_readings 0)
                     (sample_processing "a" 1 3) "boom"
                     [sample_processing "a" 1 3])
              Hlt _ _ eq_refl)))) H1).
Defined.

(** ** [process_job] *)

(** Exit code 0: the job is completed with the captured output. *)
Lemma process_job_exit_zero config rd rd' j out err s :
  process_job config rd rd' j (Returned 0 out err) s =
  complete_job (now_update rd) j out err s.
Proof. reflexivity. Qed.


(** A non-zero exit code: fail-handling runs with the captured [stderr], or
    with a constructed text when nothing was captured; its result is the
    result of [process_job] when it returns. *)
Lemma process_job_nonzero config rd rd' j returncode out err s s' :
  returncode <> 0 ->
  fail_job config rd j
    (if String.eqb err "" then "Job failed with non-zero exit code" else err) s =
    (inr tt, s') ->
  process_job config rd rd' j (Returned returncode out err) s = (inr tt, s').
Proof.
  intros Hrc Hfail. unfold process_job, try_except.
  destruct (Z.eqb_spec returncode 0); [contradiction |].
  rewrite Hfail. reflexivity.
Qed.

(** A timeout: fail-handling runs with the timeout message. *)
Lemma process_job_timeout config rd rd' j msg s :
  process_job config rd rd' j (Raised (TimeoutExpired msg)) s =
  fail_job config rd' j "Job timed out after 60s." s.
Proof. reflexivity. Qed.

(** Any other exception of [subprocess.run]: fail-handling runs with a text
    built from the exception. *)
Lemma process_job_launch_error config rd rd' j e s :
  (forall msg, e <> TimeoutExpired msg) ->
  process_job config rd rd' j (Raised e) s =
  fail_job config rd' j ("Subprocess execution failed: " ++ str e) s.
Proof.
  intros He. unfold process_job, try_except, raise.
  destruct e; try reflexivity. exfalso. eapply He. reflexivity.
Qed.

Lemma fail_job_returns config rd j err s :
  backoff_returns config rd j ->
  exists s', fail_job config rd j err s = (inr tt, s').
Proof.
  intros [Hge | [[d t] Hret]].
  - rewrite fail_job_dead by exact Hge. eexists. reflexivity.
  - destruct (Z.lt_ge_cases (attempts j) (max_retries j)) as [Hlt | Hge].
    + rewrite (fail_job_retry config rd j err s d t Hlt Hret). eexists. reflexivity.
    + rewrite fail_job_dead by exact Hge. eexists. reflexivity.
Qed.

(** As long as fail-handling itself returns, [process_job] returns for every
    outcome of the child process. *)
Lemma process_job_returns config rd rd' j res s :
  backoff_returns config rd j -> backoff_returns config rd' j ->
  exists s', process_job config rd rd' j res s = (inr tt, s').
Proof.
  intros Hrd Hrd'. destruct res as [returncode out err | e].
  - destruct (Z.eq_dec returncode 0) as [-> | Hrc].
    + rewrite process_job_exit_zero. eexists. reflexivity.
    + destruct (fail_job_returns config rd j
                  (if String.eqb err "" then "Job failed with non-zero exit code"
                   else err) s Hrd) as [s' Hs'].
      exists s'. apply process_job_nonzero; assumption.
  - destruct e;
      try (rewrite process_job_launch_error by (intros; discriminate);
           apply fail_job_returns; exact Hrd').
    rewrite process_job_timeout. apply fail_job_returns; exact Hrd'.
Qed.

(** C7 fails on the code: a worker configured with a backoff base of 10^12
    handles a job at its first attempt (of three) whose command exits with
    code 1.  The delay is about 10^12 seconds, the sum [now + delay] leaves
    the range of [datetime], and [fail_job] raises [OverflowError] inside
    the [try] body; the [except Exception] clause calls [fail_job] again,
    which raises in the same way, so the exception leaves [process_job].
    The row stays in state [processing]. *)
Theorem C7_process_job_propagates_overflow :
  let config := {| backoff_base := 1000000000000 |} in
  let j := sample_processing "a" 1 3 in
  process_job config (sample_readings 0) (sample_readings (1 # 2)) j
    (Returned 1 "" "boom") [j] =
  (inl (OverflowError "date value out of range"), [j]).
Proof. vm_compute. reflexivity. Qed.

(** ** Storage location *)


(** C9, as stated, fails in a second place: the command of a job runs in
    the environment of the worker.  Two workers whose environments give
    [QUEUECTL_DB_PATH] the same value and differ in another variable store
    different output for the same job. *)
Example process_job_reads_the_environment :
  let env1 : gmap string string := {[ "GREETING" := "hello" ]} in
  let env2 : gmap string string := {[ "GREETING" := "goodbye" ]} in
  let j := sample_processing "p" 1 3 in
  let op := op_process_job no_fault no_fault {| backoff_base := 2 |}
              (sample_readings 0) (sample_readings 0) j in
  let files : gmap string store := {[ "queue.db" := [j] ]} in
  env1 !! "QUEUECTL_DB_PATH" = env2 !! "QUEUECTL_DB_PATH" /\
  (exists r, run_op echo_greeting env1 op files =
               Some (inr nothing, {[ "queue.db" := [r] ]}) /\
             state r = completed /\ stdout r = Some "hello") /\
  (exists r, run_op echo_greeting env2 op files =
               Some (inr nothing, {[ "queue.db" := [r] ]}) /\
             state r = completed /\ stdout r = Some "goodbye").
Proof.
  cbv zeta. split; [vm_compute; reflexivity |].
  split; eexists; (split; [vm_compute; reflexivity | split; reflexivity]).
Qed.



(** ** States written by the core operations *)

Lemma sql_update_rows cond set s r' :
  In r' (sql_update cond set s) ->
  In r' s \/ exists r, In r s /\ r' = set r.
Proof.
  unfold sql_update. intros H. apply List.in_map_iff in H.
  destruct H as [r [Hr Hin]]. destruct (cond r).
  - right. exists r. split; [exact Hin | symmetry; exact Hr].
  - left. subst r'. exact Hin.
Qed.

(** A row found after one call of a core operation was there before the
    call, or was written by it in one of four states. *)
Lemma core_step_rows s s' :
  core_step s s' ->
  forall r', In r' s' ->
    In r' s \/
    state r' = pending \/ state r' = processing \/
    state r' = completed \/ state r' = dead.
Proof.
  intros Hstep r' Hin. destruct Hstep.
  - unfold add in Hin. destruct (existsb (has_id job_id) s); simpl in Hin.
    + left. exact Hin.
    + apply List.in_app_or in Hin. destruct Hin as [Hin | [Hin | []]].
      * left. exact Hin.
      * subst r'. right. left. reflexivity.
  - unfold dequeue in Hin. destruct fault as [e |].
    + left. destruct e; exact Hin.
    + unfold golden_query in Hin.
      destruct (first_row (List.filter (eligible (sql_now clock)) s)); simpl in Hin.
      * apply sql_update_rows in Hin. destruct Hin as [Hin | [r [_ Hr]]].
        -- left. exact Hin.
        -- subst r'. right. right. left. reflexivity.
      * left. exact Hin.
  - unfold complete_job, update_state in Hin. simpl in Hin.
    apply sql_update_rows in Hin. destruct Hin as [Hin | [r [_ Hr]]].
    + left. exact Hin.
    + subst r'. right. right. right. left. reflexivity.
  - unfold fail_job in Hin. destruct (attempts j >=? max_retries j).
    + simpl in Hin. apply sql_update_rows in Hin. destruct Hin as [Hin | [r [_ Hr]]].
      * left. exact Hin.
      * subst r'. right. right. right. right. reflexivity.
    + unfold bind, lift in Hin.
      destruct (calculate_backoff config rd j) as [e | p]; simpl in Hin.
      * left. exact Hin.
      * apply sql_update_rows in Hin. destruct Hin as [Hin | [r [_ Hr]]].
        -- left. exact Hin.
        -- subst r'. right. left. reflexivity.
  - unfold requeue in Hin. simpl in Hin.
    apply sql_update_rows in Hin. destruct Hin as [Hin | [r [_ Hr]]].
    + left. exact Hin.
    + subst r'. right. left. reflexivity.
Qed.

(** The core operations keep the primary key. *)
Lemma core_step_primary_key s s' :
  core_step s s' -> primary_key s -> primary_key s'.
Proof.
  unfold primary_key. intros Hstep PK. destruct Hstep.
  - unfold add. destruct (existsb (has_id job_id) s) eqn:Hex; simpl; [exact PK |].
    rewrite List.map_app. simpl.
    apply List.NoDup_app; [exact PK | repeat constructor; intros [] |].
    intros i Hi [Heq | []]. subst i.
    apply List.in_map_iff in Hi. destruct Hi as [r [Hid Hr]].
    assert (Htrue : existsb (has_id job_id) s = true).
    { apply List.existsb_exists. exists r. split; [exact Hr |].
      apply has_id_true. exact Hid. }
    congruence.
  - unfold dequeue. destruct fault as [e |].
    + destruct e; exact PK.
    + unfold golden_query.
      destruct (first_row (List.filter (eligible (sql_now clock)) s)); simpl;
        [| exact PK].
      rewrite sql_update_ids by reflexivity. exact PK.
  - unfold complete_job, update_state. simpl.
    rewrite sql_update_ids by reflexivity. exact PK.
  - unfold fail_job. destruct (attempts j >=? max_retries j).
    + simpl. rewrite sql_update_ids by reflexivity. exact PK.
    + unfold bind, lift.
      destruct (calculate_backoff config rd j) as [e | p]; simpl; [exact PK |].
      rewrite sql_update_ids by reflexivity. exact PK.
  - unfold requeue. simpl. rewrite sql_update_ids by reflexivity. exact PK.
Qed.

Lemma reachable_primary_key s : reachable s -> primary_key s.
Proof.
  induction 1 as [| s s' _ IH Hstep].
  - constructor.
  - eapply core_step_primary_key; eassumption.
Qed.

(** C10: no core operation writes the state [failed].  A row found after a
    call of [add], [dequeue], [complete_job], [fail_job] or [requeue] is a
    row that was there before the call or has one of the states [pending],
    [processing], [completed], [dead]; so no row of a table that these
    operations produce from the empty table is in state [failed]. *)
Theorem C10_failed_never_written :
  (forall s s' r',
     core_step s s' -> In r' s' ->
     In r' s \/
     state r' = pending \/ state r' = processing \/
     state r' = completed \/ state r' = dead) /\
  (forall s r, reachable s -> In r s -> state r <> failed).
Proof.
  split.
  - intros s s' r' Hstep Hin. eapply core_step_rows; eassumption.
  - intros s r Hreach. revert r.
    induction Hreach as [| s s' _ IH Hstep]; intros r Hin; [contradiction |].
    destruct (core_step_rows s s' Hstep r Hin) as [Hold | [H | [H | [H | H]]]];
      [apply IH; exact Hold | | | |]; rewrite H; discriminate.
Qed.

Lemma C10_failed_never_written_witness :
  let s := snd (add "a" sample_clock "true" 3 0 None []) in
  reachable s /\
  In (sample_pending "a" "2026-11-03T12:00:00Z" 0 None) s /\
  state (sample_pending "a" "2026-11-03T12:00:00Z" 0 None) <> failed.
Proof.
  cbv zeta.
  assert (Hreach : reachable (snd (add "a" sample_clock "true" 3 0 None [])))
    by (eapply reach_step; [apply reach_init | apply step_add]).
  assert (Hin : In (sample_pending "a" "2026-11-03T12:00:00Z" 0 None)
                  (snd (add "a" sample_clock "true" 3 0 None [])))
    by (left; reflexivity).
  split; [exact Hreach |]. split; [exact Hin |].
  exact (proj2 C10_failed_never_written _ _ Hreach Hin).
Defined.

(** ** A run of the whole life cycle *)

(** The first claim returns the job with one attempt; after the first
    failure the job is pending with [run_at] one second later, so the claim
    of the same second finds nothing and the claim two seconds later
    returns the job with two attempts; the second failure makes it dead, no
    claim finds it any more, and [requeue] brings it back to pending with
    no attempts and no output. *)
Example retry_scenario_runs :
  let claimed (n : Z) (now : string) (ra err : option string) :=
    {| id := "a"; command := "false"; state := processing; attempts := n;
       max_retries := 2; created_at := "2026-11-03T12:00:00Z";
       updated_at := now; priority := 0; run_at := ra;
       stdout := None; stderr := err |} in
  fst (retry_scenario []) =
  inr ([ Some (claimed 1 "2026-11-03T12:00:00Z" None None);
         None;
         Some (claimed 2 "2026-11-03T12:00:02Z"
                 (Some "2026-11-03T12:00:01Z") (Some "boom"));
         None ],
       true,
       Some {| id := "a"; command := "false"; state := pending; attempts := 0;
               max_retries := 2; created_at := "2026-11-03T12:00:00Z";
               updated_at := "2026-11-03T12:00:09Z"; priority := 0;
               run_at := None; stdout := None; stderr := None |}).
Proof. vm_compute. reflexivity. Qed.

(** * Further properties *)

(** ** What a call of a core operation writes *)

(** A row found after one call of a core operation was there before, or is
    the row that [add] inserts, or is a row from before as one of the
    [SET] clauses rewrites it. *)
Lemma core_step_row_cases s s' :
  core_step s s' ->
  forall r', In r' s' ->
    In r' s \/
    (state r' = pending /\ attempts r' = 0) \/
    exists r, In r s /\
      ((exists now, r' = set_claimed now r) \/
       (exists st now out err ra,
          r' = set_state st now out err ra r /\ st <> processing) \/
       (exists now, r' = set_requeued now r)).
Proof.
  intros Hstep r' Hin. destruct Hstep.
  - unfold add in Hin. destruct (existsb (has_id job_id) s); simpl in Hin.
    + left. exact Hin.
    + apply List.in_app_or in Hin. destruct Hin as [Hin | [Hin | []]].
      * left. exact Hin.
      * subst r'. right. left. split; reflexivity.
  - unfold dequeue in Hin. destruct fault as [e |].
    + left. destruct e; exact Hin.
    + unfold golden_query in Hin.
      destruct (first_row (List.filter (eligible (sql_now clock)) s));
        simpl in Hin; [| left; exact Hin].
      apply sql_update_rows in Hin. destruct Hin as [Hin | [r [Hr Heq]]].
      * left. exact Hin.
      * right. right. exists r. split; [exact Hr |]. left. eexists. exact Heq.
  - unfold complete_job, update_state in Hin. simpl in Hin.
    apply sql_update_rows in Hin. destruct Hin as [Hin | [r [Hr Heq]]].
    + left. exact Hin.
    + right. right. exists r. split; [exact Hr |]. right. left.
      do 5 eexists. split; [exact Heq | discriminate].
  - unfold fail_job in Hin. destruct (attempts j >=? max_retries j).
    + simpl in Hin. apply sql_update_rows in Hin. destruct Hin as [Hin | [r [Hr Heq]]].
      * left. exact Hin.
      * right. right. exists r. split; [exact Hr |]. right. left.
        do 5 eexists. split; [exact Heq | discriminate].
    + unfold bind, lift in Hin.
      destruct (calculate_backoff config rd j) as [e | p]; simpl in Hin.
      * left. exact Hin.
      * apply sql_update_rows in Hin. destruct Hin as [Hin | [r [Hr Heq]]].
        -- left. exact Hin.
        -- right. right. exists r. split; [exact Hr |]. right. left.
           do 5 eexists. split; [exact Heq | discriminate].
  - unfold requeue in Hin. simpl in Hin.
    apply sql_update_rows in Hin. destruct Hin as [Hin | [r [Hr Heq]]].
    + left. exact Hin.
    + right. right. exists r. split; [exact Hr |]. right. right.
      eexists. exact Heq.
Qed.

Lemma core_step_attempts s s' :
  core_step s s' ->
  (forall r, In r s -> attempts_ok r) -> forall r', In r' s' -> attempts_ok r'.
Proof.
  intros Hstep Hinv r' Hin.
  destruct (core_step_row_cases s s' Hstep r' Hin)
    as [Hold | [[Hst Hatt] | [r [Hr Hcase]]]].
  - apply Hinv. exact Hold.
  - unfold attempts_ok. rewrite Hst, Hatt. split; [lia | discriminate].
  - destruct (Hinv r Hr) as [H0 H1].
    destruct Hcase as [[now Heq] | [[st [now [out [err [ra [Heq Hst]]]]]] | [now Heq]]];
      subst r'; unfold attempts_ok; simpl.
    + split; [lia | intros _; lia].
    + split; [exact H0 | intros Hp; contradiction].
    + split; [lia | discriminate].
Qed.

Lemma reachable_attempts s :
  reachable s -> forall r, In r s -> attempts_ok r.
Proof.
  induction 1 as [| s s' _ IH Hstep]; [intros r [] |].
  intros r Hr. exact (core_step_attempts s s' Hstep IH r Hr).
Qed.

(** In every table that the core operations produce from the empty table,
    no two rows share an id, no attempt counter is negative, and a row in
    state [processing] has been claimed at least once. *)
Theorem reachable_table_invariants (s : store) :
  reachable s ->
  primary_key s /\
  forall r, In r s ->
    0 <= attempts r /\ (state r = processing -> 1 <= attempts r).
Proof.
  intros Hreach. split.
  - induction Hreach as [| s s' _ IH Hstep]; [constructor |].
    eapply core_step_primary_key; eassumption.
  - exact (reachable_attempts s Hreach).
Qed.

Lemma reachable_table_invariants_witness :
  let s := snd (dequeue None sample_clock
                  (snd (add "a" sample_clock "true" 3 0 None []))) in
  reachable s /\ primary_key s /\
  forall r, In r s -> state r = processing -> 1 <= attempts r.
Proof.
  cbv zeta.
  assert (Hreach : reachable (snd (dequeue None sample_clock
                     (snd (add "a" sample_clock "true" 3 0 None [])))))
    by (eapply reach_step;
        [eapply reach_step; [apply reach_init | apply step_add]
        | apply step_dequeue]).
  split; [exact Hreach |].
  destruct (reachable_table_invariants _ Hreach) as [PK Hatt].
  split; [exact PK |]. intros r Hr. exact (proj2 (Hatt r Hr)).
Defined.

(** ** A claimed job *)

(** What a [dequeue] that returns a job did. *)
Lemma dequeue_some fault clock s j s' :
  primary_key s ->
  dequeue fault clock s = (inr (Some j), s') ->
  fault = None /\
  exists b,
    In b s /\ eligible (sql_now clock) b = true /\
    j = set_claimed (sql_now clock) b /\
    s' = sql_update (has_id (id b)) (set_claimed (sql_now clock)) s /\
    List.find (has_id (id b)) s' = Some j.
Proof.
  intros PK Hdq. unfold dequeue in Hdq.
  destruct fault as [e |]; [destruct e; discriminate Hdq |].
  split; [reflexivity |].
  destruct (golden_query_spec (sql_now clock) s PK)
    as [[_ Hq] | [b [Hin [Hel [_ Hq]]]]]; rewrite Hq in Hdq; simpl in Hdq;
    [discriminate Hdq |].
  injection Hdq as Hj Hs. subst j s'.
  exists b. split; [exact Hin |]. split; [exact Hel |].
  split; [reflexivity |]. split; [reflexivity |].
  rewrite find_sql_update by apply set_claimed_id.
  rewrite (find_has_id s b PK Hin). simpl.
  assert (Hb : has_id (id b) b = true) by (apply has_id_true; reflexivity).
  rewrite Hb. reflexivity.
Qed.

(** No job is handed out twice: once [dequeue] has returned a job, the row
    is in state [processing] and eligible at no time, and the next
    [dequeue], whenever it runs, returns a job of another id (or none). *)
Theorem claimed_job_not_claimed_again (fault fault' : option exn)
    (clock clock' : Z) (s s' s'' : store) (j j' : job) :
  primary_key s ->
  dequeue fault clock s = (inr (Some j), s') ->
  (List.find (has_id (id j)) s' = Some j /\ state j = processing /\
   forall now, eligible now j = false) /\
  (dequeue fault' clock' s' = (inr (Some j'), s'') -> id j' <> id j).
Proof.
  intros PK Hdq.
  destruct (dequeue_some fault clock s j s' PK Hdq)
    as [_ [b [Hin [Hel [Hj [Hs Hfind]]]]]].
  assert (Hidj : id j = id b) by (subst j; reflexivity).
  assert (Hproc : state j = processing) by (subst j; reflexivity).
  assert (Hnot : forall now, eligible now j = false)
    by (intros now; unfold eligible; rewrite Hproc; reflexivity).
  split.
  - rewrite Hidj. split; [exact Hfind |]. split; [exact Hproc | exact Hnot].
  - intros Hdq' Heq.
    assert (PK' : primary_key s').
    { unfold primary_key. subst s'.
      rewrite sql_update_ids by apply set_claimed_id. exact PK. }
    destruct (dequeue_some fault' clock' s' j' s'' PK' Hdq')
      as [_ [b' [Hin' [Hel' [Hj' _]]]]].
    assert (Hidb' : id b' = id b) by (rewrite <- Hidj, <- Heq; subst j'; reflexivity).
    pose proof (find_has_id s' b' PK' Hin') as Hfind'.
    rewrite Hidb', Hfind in Hfind'. injection Hfind' as Hsame. subst b'.
    rewrite Hnot in Hel'. discriminate Hel'.
Qed.

Lemma claimed_job_not_claimed_again_witness :
  primary_key sample_table /\
  exists j s',
    dequeue None sample_clock sample_table = (inr (Some j), s') /\
    id j = "c" /\
    forall j' s'',
      dequeue None (sample_clock + 1000000) s' = (inr (Some j'), s'') ->
      id j' <> "c".
Proof.
  split; [exact sample_table_primary_key |].
  eexists. eexists. split; [reflexivity |]. split; [reflexivity |].
  intros j' s'' Hdq'.
  exact (proj2 (claimed_job_not_claimed_again None None sample_clock
                  (sample_clock + 1000000) sample_table _ s'' _ j'
                  sample_table_primary_key eq_refl) Hdq').
Defined.

(** On a table that the core operations produced, a job that [dequeue]
    returns has at least one attempt, so the power [base ** attempts] never
    divides by zero: the only exception the backoff computation can raise
    for it is [OverflowError]. *)
Theorem claimed_job_backoff_raises_only_overflow (fault : option exn)
    (clock : Z) (s s' : store) (j : job) (config : WorkerConfig)
    (rd : readings) (e : exn) :
  reachable s ->
  dequeue fault clock s = (inr (Some j), s') ->
  1 <= attempts j /\
  (calculate_backoff config rd j = inl e -> exists msg, e = OverflowError msg).
Proof.
  intros Hreach Hdq.
  destruct (dequeue_some fault clock s j s' (reachable_primary_key s Hreach) Hdq)
    as [_ [b [Hin [_ [Hj _]]]]].
  destruct (reachable_attempts s Hreach b Hin) as [H0 _].
  assert (Hatt : 1 <= attempts j) by (subst j; simpl; lia).
  split; [exact Hatt |].
  unfold calculate_backoff, float_pow, timedelta, datetime_add, and_then.
  assert (Hneg : (attempts j <? 0) = false) by (apply Z.ltb_ge; lia).
  rewrite Hneg, andb_false_r.
  repeat match goal with
         | |- context [if ?c then _ else _] => destruct c
         end;
    intros H; try discriminate H; injection H as <-; eexists; reflexivity.
Qed.

Lemma claimed_job_backoff_raises_only_overflow_witness :
  let s := snd (add "a" sample_clock "false" 3 0 None []) in
  reachable s /\
  exists j s',
    dequeue None sample_clock s = (inr (Some j), s') /\
    attempts j = 1 /\
    exists msg,
      calculate_backoff {| backoff_base := 1000000000000 |} (sample_readings 0) j =
      inl (OverflowError msg).
Proof.
  cbv zeta.
  assert (Hreach : reachable (snd (add "a" sample_clock "false" 3 0 None [])))
    by (eapply reach_step; [apply reach_init | apply step_add]).
  split; [exact Hreach |].
  eexists. eexists. split; [reflexivity |]. split; [reflexivity |].
  destruct (proj2 (claimed_job_backoff_raises_only_overflow None sample_clock _ _ _
                     {| backoff_base := 1000000000000 |} (sample_readings 0)
                     (OverflowError "date value out of range") Hreach eq_refl)
              eq_refl) as [msg Hmsg].
  exists msg. rewrite <- Hmsg. reflexivity.
Defined.

(** ** [requeue], again *)

Lemma requeue_condition_after now i (s : store) :
  forall r,
    In r (sql_update (fun r => has_id i r && state_eqb (state r) dead)
            (set_requeued now) s) ->
    has_id i r && state_eqb (state r) dead = false.
Proof.
  intros r Hr. unfold sql_update in Hr. apply List.in_map_iff in Hr.
  destruct Hr as [x [Hx _]].
  destruct (has_id i x && state_eqb (state x) dead) eqn:Hc; subst r.
  - simpl. apply andb_false_r.
  - exact Hc.
Qed.

(** A job that [requeue] brought back can be claimed at once and cannot be
    requeued twice: after a [requeue] that returned [True], the row of the
    id is pending with no [run_at], so it is eligible at every time; and a
    second [requeue] of the id returns [False] and leaves the table as it
    is. *)
Theorem requeue_then_eligible_once (clock clock' : Z) (job_id : string)
    (s s' : store) :
  primary_key s ->
  requeue clock job_id s = (inr true, s') ->
  (exists r, List.find (has_id job_id) s' = Some r /\ state r = pending /\
             attempts r = 0 /\ forall now, eligible now r = true) /\
  requeue clock' job_id s' = (inr false, s').
Proof.
  intros PK Hrq. unfold requeue, sql_updated in Hrq.
  set (now := get_iso_now clock) in *.
  set (cond := fun r : job => has_id job_id r && state_eqb (state r) dead) in *.
  injection Hrq as Hcount Hs.
  destruct (List.filter cond s) as [| j rest] eqn:Hf; [discriminate Hcount |].
  assert (Hj : In j (List.filter cond s)) by (rewrite Hf; left; reflexivity).
  apply List.filter_In in Hj. destruct Hj as [Hin Hc].
  unfold cond in Hc. apply andb_true_iff in Hc. destruct Hc as [Hid Hst].
  apply has_id_true in Hid.
  split.
  - exists (set_requeued now j). subst s' job_id.
    split; [| split; [reflexivity | split; [reflexivity | intros; reflexivity]]].
    rewrite find_sql_update by apply set_requeued_id.
    rewrite (find_has_id s j PK Hin). simpl. unfold cond.
    assert (Hb : has_id (id j) j = true) by (apply has_id_true; reflexivity).
    rewrite Hb, Hst. reflexivity.
  - unfold requeue, sql_updated.
    pose proof (requeue_condition_after now job_id s) as Hafter.
    fold cond in Hafter. rewrite Hs in Hafter.
    assert (Hnil : List.filter
                     (fun r => has_id job_id r && state_eqb (state r) dead) s' = []).
    { clear - Hafter. induction s' as [| x l IH]; simpl; [reflexivity |].
      rewrite (Hafter x) by (left; reflexivity).
      apply IH. intros r Hr. apply Hafter. right. exact Hr. }
    rewrite Hnil. simpl. rewrite sql_update_none by exact Hafter. reflexivity.
Qed.

Lemma requeue_then_eligible_once_witness :
  primary_key sample_dead_table /\
  exists s',
    requeue sample_clock "d" sample_dead_table = (inr true, s') /\
    requeue (sample_clock + 1000000) "d" s' = (inr false, s').
Proof.
  assert (PK : primary_key sample_dead_table).
  { unfold primary_key, sample_dead_table. simpl.
    repeat constructor; simpl; intuition discriminate. }
  split; [exact PK |].
  eexists. split; [reflexivity |].
  exact (proj2 (requeue_then_eligible_once sample_clock (sample_clock + 1000000)
                  "d" sample_dead_table _ PK eq_refl)).
Defined.

(** ** The frame of [process_job] *)







(** ** Claims in a row *)

Lemma sql_update_no_such_id i set (s : store) :
  ~ In i (List.map id s) -> sql_update (has_id i) set s = s.
Proof.
  intros Hnot. apply sql_update_none. intros r Hr.
  apply has_id_false. intros Heq. apply Hnot. rewrite <- Heq.
  apply List.in_map. exact Hr.
Qed.

(** A claim takes one row out of the eligible rows and leaves the others
    eligible as they were. *)
Lemma claim_removes_one now s b :
  primary_key s -> In b s -> eligible now b = true ->
  Permutation (List.filter (eligible now) s)
    (b :: List.filter (eligible now)
            (sql_update (has_id (id b)) (set_claimed now) s)).
Proof.
  unfold primary_key. induction s as [| a s IH]; intros PK Hin Hel; [contradiction |].
  simpl in PK. inversion PK as [| x l Hnotin PK']; subst.
  destruct Hin as [Heq | Hin].
  - subst a. simpl.
    assert (Hb : has_id (id b) b = true) by (apply has_id_true; reflexivity).
    rewrite Hb, Hel. fold (sql_update (has_id (id b)) (set_claimed now) s).
    rewrite (sql_update_no_such_id _ _ _ Hnotin).
    assert (Hcl : eligible now (set_claimed now b) = false) by reflexivity.
    rewrite Hcl. apply Permutation_refl.
  - assert (Ha : has_id (id b) a = false).
    { apply has_id_false. intros Heq. apply Hnotin. rewrite Heq.
      apply List.in_map. exact Hin. }
    simpl. rewrite Ha. fold (sql_update (has_id (id b)) (set_claimed now) s).
    specialize (IH PK' Hin Hel).
    destruct (eligible now a).
    + eapply Permutation_trans; [apply perm_skip; exact IH | apply perm_swap].
    + exact IH.
Qed.

Lemma filter_keeps_primary_key (p : job -> bool) (s : store) :
  primary_key s -> primary_key (List.filter p s).
Proof.
  unfold primary_key. induction s as [| a s IH]; simpl; intros PK; [constructor |].
  inversion PK as [| x l Hnotin PK']; subst.
  destruct (p a); simpl; [| apply IH; exact PK'].
  constructor; [| apply IH; exact PK'].
  intros Hin. apply Hnotin. apply List.in_map_iff in Hin.
  destruct Hin as [r [Hid Hr]]. apply List.filter_In in Hr.
  rewrite <- Hid. apply List.in_map. tauto.
Qed.

(** The jobs that [n] claims in a row return, related to the rows [taken]
    they were made from. *)
Lemma claim_repeatedly_spec n clock :
  forall s, primary_key s ->
  exists taken s',
    claim_repeatedly n clock s =
      (inr (List.map (set_claimed (sql_now clock)) taken), s') /\
    primary_key s' /\
    Permutation (taken ++ List.filter (eligible (sql_now clock)) s')%list
                (List.filter (eligible (sql_now clock)) s) /\
    StronglySorted (fun a b => sorts_before b a = false) taken /\
    (List.length taken <= n)%nat /\
    (List.length taken < n -> List.filter (eligible (sql_now clock)) s' = [])%nat.
Proof.
  set (now := sql_now clock).
  induction n as [| k IH]; intros s PK.
  - exists [], s. split; [reflexivity |]. split; [exact PK |].
    split; [apply Permutation_refl |]. split; [constructor |].
    simpl. split; [lia | intros H; inversion H].
  - simpl. unfold bind. unfold dequeue. fold now.
    destruct (golden_query_spec now s PK)
      as [[Hnone Hq] | [b [Hin [Hel [Hbest Hq]]]]]; rewrite Hq; simpl.
    + exists [], s. split; [reflexivity |]. split; [exact PK |].
      split; [apply Permutation_refl |]. split; [constructor |].
      split; [simpl; lia |].
      intros _. clear - Hnone. induction s as [| a s IHs]; simpl; [reflexivity |].
      rewrite (Hnone a) by (left; reflexivity).
      apply IHs. intros r Hr. apply Hnone. right. exact Hr.
    + set (s1 := sql_update (has_id (id b)) (set_claimed now) s).
      assert (PK1 : primary_key s1).
      { unfold primary_key, s1. rewrite sql_update_ids by apply set_claimed_id.
        exact PK. }
      destruct (IH s1 PK1)
        as [taken [s' [Hrun [PK' [Hperm [Hsorted [Hle Hdrained]]]]]]].
      pose proof (claim_removes_one now s b PK Hin Hel) as Hone. fold s1 in Hone.
      exists (b :: taken), s'. rewrite Hrun. simpl.
      split; [reflexivity |]. split; [exact PK' |]. split; [| split; [| split]].
      * eapply Permutation_trans; [apply perm_skip; exact Hperm |].
        apply Permutation_sym. exact Hone.
      * constructor; [exact Hsorted |].
        apply List.Forall_forall. intros x Hx. apply Hbest.
        -- assert (Hx1 : In x (List.filter (eligible now) s1)).
           { apply (Permutation_in _ Hperm). apply List.in_or_app. left. exact Hx. }
           assert (Hx0 : In x (List.filter (eligible now) s)).
           { apply (Permutation_in _ (Permutation_sym Hone)). right. exact Hx1. }
           apply List.filter_In in Hx0. tauto.
        -- assert (Hx1 : In x (List.filter (eligible now) s1)).
           { apply (Permutation_in _ Hperm). apply List.in_or_app. left. exact Hx. }
           assert (Hx0 : In x (List.filter (eligible now) s)).
           { apply (Permutation_in _ (Permutation_sym Hone)). right. exact Hx1. }
           apply List.filter_In in Hx0. tauto.
      * lia.
      * intros Hlt. apply Hdrained. lia.
Qed.

(** No loss and no duplication over claims in a row.  [n] calls of
    [dequeue] at one clock reading return the updated versions of distinct
    eligible rows of the table, best first (no later job precedes an
    earlier one in the order priority descending, creation time
    ascending); together with the rows still eligible afterwards they are
    exactly the rows that were eligible at the start, each once.  The
    number of jobs returned is [n] or the number of eligible rows,
    whichever is smaller; and when [n] is at least that number, no row is
    eligible afterwards and one more [dequeue] returns [None]. *)
Theorem claims_in_a_row_deliver_each_job_once (n : nat) (clock : Z) (s : store) :
  primary_key s ->
  let now := sql_now clock in
  exists taken s',
    claim_repeatedly n clock s = (inr (List.map (set_claimed now) taken), s') /\
    Permutation (taken ++ List.filter (eligible now) s')%list
                (List.filter (eligible now) s) /\
    List.NoDup (List.map id (List.map (set_claimed now) taken)) /\
    StronglySorted (fun a b => sorts_before b a = false) taken /\
    List.length taken =
      Nat.min n (List.length (List.filter (eligible now) s)) /\
    ((List.length (List.filter (eligible now) s) <= n)%nat ->
     List.filter (eligible now) s' = [] /\
     dequeue None clock s' = (inr None, s')).
Proof.
  intros PK now.
  destruct (claim_repeatedly_spec n clock s PK)
    as [taken [s' [Hrun [PK' [Hperm [Hsorted [Hle Hdrained]]]]]]].
  fold now in Hrun, Hperm, Hdrained.
  exists taken, s'. split; [exact Hrun |]. split; [exact Hperm |].
  assert (Hlen : (List.length taken +
                  List.length (List.filter (eligible now) s') =
                  List.length (List.filter (eligible now) s))%nat).
  { rewrite <- (Permutation_length Hperm). rewrite List.length_app. reflexivity. }
  assert (Hrest : (List.length taken < n ->
                   List.length (List.filter (eligible now) s') = 0)%nat).
  { intros Hlt. rewrite (Hdrained Hlt). reflexivity. }
  split; [| split; [exact Hsorted | split; [lia |]]].
  - rewrite List.map_map.
    rewrite (List.map_ext _ id (set_claimed_id now)).
    pose proof (filter_keeps_primary_key (eligible now) s PK) as PKE.
    unfold primary_key in PKE.
    apply (Permutation_NoDup (Permutation_map id (Permutation_sym Hperm))) in PKE.
    rewrite List.map_app in PKE.
    exact (List.NoDup_app_remove_r _ _ PKE).
  - intros Hall.
    assert (Hnil : List.filter (eligible now) s' = []).
    { destruct (List.filter (eligible now) s'); [reflexivity |].
      simpl in Hlen, Hrest. exfalso. lia. }
    split; [exact Hnil |].
    unfold dequeue. fold now.
    destruct (golden_query_spec now s' PK')
      as [[_ Hq] | [b [Hin [Hel _]]]]; [rewrite Hq; reflexivity |].
    exfalso.
    assert (Hb : In b (List.filter (eligible now) s'))
      by (apply List.filter_In; split; assumption).
    rewrite Hnil in Hb. contradiction.
Qed.

Lemma claims_in_a_row_deliver_each_job_once_witness :
  primary_key sample_table /\
  exists jobs s',
    claim_repeatedly 5 sample_clock sample_table = (inr jobs, s') /\
    List.map id jobs = ["c"; "a"] /\
    dequeue None sample_clock s' = (inr None, s').
Proof.
  split; [exact sample_table_primary_key |].
  destruct (claims_in_a_row_deliver_each_job_once 5 sample_clock sample_table
              sample_table_primary_key)
    as [taken [s' [Hrun [_ [_ [_ [_ Hdrain]]]]]]].
  assert (Hc : fst (claim_repeatedly 5 sample_clock sample_table) =
               inr (List.map (set_claimed (sql_now sample_clock))
                      [sample_pending "c" "2026-11-03T10:00:00Z" 0 None;
                       sample_pending "a" "2026-11-03T11:00:00Z" 0
                         (Some "2020-01-01T00:00:00Z")]))
    by (vm_compute; reflexivity).
  eexists. exists s'. split; [exact Hrun |]. split.
  - rewrite Hrun in Hc. simpl in Hc. injection Hc as Hc. rewrite Hc. reflexivity.
  - apply Hdrain. vm_compute. lia.
Defined.

(** ** When fail-handling cannot overflow *)




(** ** A call the engine refuses *)



Lemma guarded_no_ints {A} (db : db_call) (m : M A) (s : store) :
  guarded db [] m s =
  match first_fault db with
  | Some e => (inl e, s)
  | None => m s
  end.
Proof.
  unfold guarded, first_fault.
  destruct (fault_before_bind db); [reflexivity |]. simpl.
  destruct (fault_after_bind db); reflexivity.
Qed.







(** ** [add] and [get] *)

Lemma find_none_existsb i (s : store) :
  List.find (has_id i) s = None <-> existsb (has_id i) s = false.
Proof.
  induction s as [| r s IH]; simpl; [tauto |].
  destruct (has_id i r); simpl; [split; discriminate | exact IH].
Qed.

Lemma find_app_fresh i (s : store) r :
  List.find (has_id i) (s ++ [r])%list =
  match List.find (has_id i) s with
  | Some x => Some x
  | None => if has_id i r then Some r else None
  end.
Proof.
  induction s as [| x s IH]; simpl; [reflexivity |].
  destruct (has_id i x); [reflexivity | exact IH].
Qed.

(** [add] then [get].  When the engine carries the call out, [max_retries]
    and [priority] are in the range of an SQLite INTEGER and the id is not
    in the table, [add] returns the id and a [get] of that id then returns
    a pending row with no attempts, the command, retry budget, priority and
    [run_at] that were supplied, both timestamps at the time of the call
    and no output; a [get] of any other id returns what it returned before.
    When the id is in the table, [add] raises [IntegrityError].  When
    [max_retries] or [priority] is outside the range, [add] raises
    [OverflowError], unless the engine raised before the parameters were
    bound.  When the engine refuses the call, [add] raises what the engine
    raised.  Whenever [add] raises, the table is as before. *)
Theorem add_get_round_trip (db db' : db_call) (job_id : string) (clock : Z)
    (cmd : string) (mr prio : Z) (ra : option string) (s : store) :
  (first_fault db = None -> int64 mr = true -> int64 prio = true ->
   List.find (has_id job_id) s = None ->
   exists s',
     Engine.add db job_id clock cmd mr prio ra s = (inr job_id, s') /\
     (first_fault db' = None ->
      Engine.get db' job_id s' =
        (inr (Some {| id := job_id; command := cmd; state := pending;
                      attempts := 0; max_retries := mr;
                      created_at := get_iso_now clock;
                      updated_at := get_iso_now clock;
                      priority := prio; run_at := ra;
                      stdout := None; stderr := None |}), s')) /\
     (forall i, i <> job_id ->
        fst (Engine.get db' i s') = fst (Engine.get db' i s)) /\
     List.length s' = S (List.length s)) /\
  (first_fault db = None -> int64 mr = true -> int64 prio = true ->
   forall r, List.find (has_id job_id) s = Some r ->
   exists msg,
     Engine.add db job_id clock cmd mr prio ra s = (inl (IntegrityError msg), s)) /\
  (fault_before_bind db = None -> int64 mr && int64 prio = false ->
   exists msg,
     Engine.add db job_id clock cmd mr prio ra s = (inl (OverflowError msg), s)) /\
  (forall e, first_fault db = Some e ->
   fault_before_bind db = Some e \/ int64 mr && int64 prio = true ->
   Engine.add db job_id clock cmd mr prio ra s = (inl e, s)) /\
  (forall e s', Engine.add db job_id clock cmd mr prio ra s = (inl e, s') -> s' = s).
Proof.
  assert (Hadd : Engine.add db job_id clock cmd mr prio ra s =
                 match fault_before_bind db with
                 | Some e => (inl e, s)
                 | None =>
                     if int64 mr && int64 prio
                     then match fault_after_bind db with
                          | Some e => (inl e, s)
                          | None => add job_id clock cmd mr prio ra s
                          end
                     else (inl (OverflowError
                                  "Python int too large to convert to SQLite INTEGER"), s)
                 end).
  { unfold Engine.add, guarded. simpl. rewrite andb_true_r.
    destruct (fault_before_bind db); [reflexivity |].
    destruct (int64 mr && int64 prio); [| reflexivity].
    destruct (fault_after_bind db); reflexivity. }
  assert (Hget : forall i t, Engine.get db' i t =
                   match first_fault db' with
                   | Some e => (inl e, t)
                   | None => (inr (List.find (has_id i) t), t)
                   end).
  { intros i t. unfold Engine.get. rewrite guarded_no_ints. reflexivity. }
  split; [| split; [| split; [| split]]].
  - intros Hdb Hmr Hprio Hfresh.
    pose proof (proj1 (find_none_existsb job_id s) Hfresh) as Hex.
    unfold first_fault in Hdb.
    destruct (fault_before_bind db) eqn:Hc; [discriminate Hdb |].
    rewrite Hadd, Hmr, Hprio, Hdb. simpl. unfold add. rewrite Hex.
    eexists. split; [reflexivity |]. split; [| split].
    + intros Hdb'. rewrite Hget, Hdb', find_app_fresh, Hfresh.
      unfold has_id at 1. simpl. rewrite String.eqb_refl. reflexivity.
    + intros i Hi. rewrite !Hget. destruct (first_fault db'); [reflexivity |].
      simpl. rewrite find_app_fresh.
      destruct (List.find (has_id i) s); [reflexivity |].
      unfold has_id at 1. simpl.
      destruct (String.eqb_spec job_id i) as [Heq | _]; [congruence | reflexivity].
    + rewrite List.length_app. simpl. lia.
  - intros Hdb Hmr Hprio r Hr. unfold first_fault in Hdb.
    destruct (fault_before_bind db) eqn:Hc; [discriminate Hdb |].
    rewrite Hadd, Hmr, Hprio, Hdb. simpl. unfold add.
    destruct (existsb (has_id job_id) s) eqn:Hex.
    + eexists. reflexivity.
    + apply find_none_existsb in Hex. congruence.
  - intros Hc Hrange. rewrite Hadd, Hc, Hrange. eexists. reflexivity.
  - intros e Hdb Hor. rewrite Hadd. unfold first_fault in Hdb.
    destruct (fault_before_bind db) eqn:Hc.
    + injection Hdb as ->. reflexivity.
    + destruct Hor as [Hor | Hrange]; [discriminate Hor |].
      rewrite Hrange, Hdb. reflexivity.
  - intros e s' H. rewrite Hadd in H.
    destruct (fault_before_bind db); [injection H as _ Hs; congruence |].
    destruct (int64 mr && int64 prio); [| injection H as _ Hs; congruence].
    destruct (fault_after_bind db); [injection H as _ Hs; congruence |].
    unfold add in H. destruct (existsb (has_id job_id) s);
      [injection H as _ Hs; congruence | discriminate H].
Qed.

Lemma add_get_round_trip_witness :
  List.find (has_id "z") sample_table = None /\
  (exists s',
     Engine.add no_fault "z" sample_clock "echo hi" 3 7 None sample_table =
       (inr "z", s') /\
     fst (Engine.get no_fault "z" s') =
       inr (Some {| id := "z"; command := "echo hi"; state := pending;
                    attempts := 0; max_retries := 3;
                    created_at := "2026-11-03T12:00:00Z";
                    updated_at := "2026-11-03T12:00:00Z";
                    priority := 7; run_at := None;
                    stdout := None; stderr := None |})) /\
  (exists msg,
     Engine.add no_fault "y" sample_clock "echo hi" 9223372036854775808 7 None
       sample_table = (inl (OverflowError msg), sample_table)).
Proof.
  assert (Hfresh : List.find (has_id "z") sample_table = None) by reflexivity.
  split; [exact Hfresh |]. split.
  - destruct (proj1 (add_get_round_trip no_fault no_fault "z" sample_clock
                       "echo hi" 3 7 None sample_table)
                eq_refl eq_refl eq_refl Hfresh) as [s' [Hadd [Hget _]]].
    exists s'. split; [exact Hadd |]. rewrite (Hget eq_refl). reflexivity.
  - exact (proj1 (proj2 (proj2 (add_get_round_trip no_fault no_fault "y"
                                  sample_clock "echo hi" 9223372036854775808 7
                                  None sample_table))) eq_refl eq_refl).
Defined.

(** ** When [process_job] returns *)



(** ** One turn of the worker loop *)





(** ** From claim to outcome *)

(** A row that is not eligible is not the one [dequeue] returns. *)
Lemma not_eligible_not_claimed fault clock s i r j' s' :
  primary_key s ->
  List.find (has_id i) s = Some r ->
  eligible (sql_now clock) r = false ->
  dequeue fault clock s = (inr (Some j'), s') -> id j' <> i.
Proof.
  intros PK Hfind Hnot Hdq Heq.
  destruct (dequeue_some fault clock s j' s' PK Hdq) as [_ [b [Hin [Hel [Hj' _]]]]].
  assert (Hidb : id b = i) by (rewrite <- Heq; subst j'; reflexivity).
  pose proof (find_has_id s b PK Hin) as Hfb.
  rewrite Hidb, Hfind in Hfb. injection Hfb as Hsame. subst b. congruence.
Qed.






(** ** [list_jobs] *)

Lemma insert_by_created_perm r rows :
  Permutation (insert_by_created r rows) (r :: rows).
Proof.
  induction rows as [| x rest IH]; simpl; [apply Permutation_refl |].
  destruct (String.leb (created_at r) (created_at x)); [apply Permutation_refl |].
  eapply Permutation_trans; [apply perm_skip; exact IH | apply perm_swap].
Qed.

Lemma order_by_created_perm rows : Permutation (order_by_created rows) rows.
Proof.
  induction rows as [| r rest IH]; simpl; [apply perm_nil |].
  eapply Permutation_trans; [apply insert_by_created_perm |].
  apply perm_skip. exact IH.
Qed.

Lemma insert_by_created_sorted r rows :
  StronglySorted created_le rows ->
  StronglySorted created_le (insert_by_created r rows).
Proof.
  induction rows as [| x rest IH]; simpl; intros Hs.
  - constructor; constructor.
  - inversion Hs as [| x' rest' Hrest Hall]; subst.
    destruct (String.leb (created_at r) (created_at x)) eqn:Hrx.
    + constructor; [exact Hs |]. constructor; [exact Hrx |].
      eapply List.Forall_impl; [| exact Hall].
      intros y Hxy. simpl in *. eapply string_leb_trans; eassumption.
    + constructor; [apply IH; exact Hrest |].
      apply List.Forall_forall. intros y Hy.
      apply (Permutation_in _ (insert_by_created_perm r rest)) in Hy.
      destruct Hy as [Hy | Hy].
      * subst y.
        destruct (String.leb_total (created_at r) (created_at x)) as [H | H];
          [congruence | exact H].
      * exact (proj1 (List.Forall_forall _ _) Hall y Hy).
Qed.

Lemma order_by_created_sorted rows :
  StronglySorted created_le (order_by_created rows).
Proof.
  induction rows as [| r rest IH]; simpl; [constructor |].
  apply insert_by_created_sorted. exact IH.
Qed.

(** [list_jobs] reads and never writes.  When the engine carries the call
    out and the limit is in the range of an SQLite INTEGER, the rows of the
    table that are in the requested state, in an order of [created_at],
    split into the rows it returns and the rows the limit cuts off: the
    returned rows come first (none of them is created later than a row cut
    off), nothing is cut off under a negative limit, and otherwise the
    number of rows returned is the limit or the number of rows in that
    state, whichever is smaller.  The order among rows created at the same
    second is the one of the engine.  A limit outside the range raises
    [OverflowError], unless the engine raised before the parameters were
    bound; a call the engine refuses raises what the engine raised. *)
Theorem list_jobs_earliest_first (db : db_call) (scan : list job -> list job)
    (st : job_state) (limit : Z) (s : store) :
  (forall l, Permutation (scan l) l) ->
  (first_fault db = None -> int64 limit = true ->
   exists rows rest,
     Engine.list_jobs db scan st limit s = (inr rows, s) /\
     Permutation (rows ++ rest)%list
       (List.filter (fun r => state_eqb (state r) st) s) /\
     (forall r, In r rows -> In r s /\ state r = st) /\
     StronglySorted created_le (rows ++ rest)%list /\
     (forall a b, In a rows -> In b rest -> created_le a b) /\
     (limit < 0 -> rest = []) /\
     (0 <= limit ->
      List.length rows =
        Nat.min (Z.to_nat limit)
          (List.length (List.filter (fun r => state_eqb (state r) st) s)))) /\
  (fault_before_bind db = None -> int64 limit = false ->
   exists msg, Engine.list_jobs db scan st limit s = (inl (OverflowError msg), s)) /\
  (forall e, first_fault db = Some e ->
   fault_before_bind db = Some e \/ int64 limit = true ->
   Engine.list_jobs db scan st limit s = (inl e, s)) /\
  snd (Engine.list_jobs db scan st limit s) = s.
Proof.
  intros Hscan.
  assert (Hlist : Engine.list_jobs db scan st limit s =
                  match fault_before_bind db with
                  | Some e => (inl e, s)
                  | None =>
                      if int64 limit
                      then match fault_after_bind db with
                           | Some e => (inl e, s)
                           | None => (inr (select_jobs scan st limit s), s)
                           end
                      else (inl (OverflowError
                                   "Python int too large to convert to SQLite INTEGER"), s)
                  end).
  { unfold Engine.list_jobs, guarded. simpl. rewrite andb_true_r.
    destruct (fault_before_bind db); [reflexivity |].
    destruct (int64 limit); [| reflexivity].
    destruct (fault_after_bind db); reflexivity. }
  split; [| split; [| split]].
  - intros Hdb Hrange. unfold first_fault in Hdb.
    destruct (fault_before_bind db) eqn:Hc; [discriminate Hdb |].
    rewrite Hlist, Hrange, Hdb. unfold select_jobs.
    set (matching := List.filter (fun r => state_eqb (state r) st) s).
    set (sorted := order_by_created (scan matching)).
    exists (sql_limit limit sorted),
           (if limit <? 0 then [] else List.skipn (Z.to_nat limit) sorted).
    assert (Hsplit : (sql_limit limit sorted ++
                      (if limit <? 0 then [] else List.skipn (Z.to_nat limit) sorted))%list
                     = sorted).
    { unfold sql_limit. destruct (limit <? 0);
        [apply List.app_nil_r | apply List.firstn_skipn]. }
    assert (Hperm : Permutation sorted matching).
    { eapply Permutation_trans; [apply order_by_created_perm | apply Hscan]. }
    assert (Hsorted : StronglySorted created_le sorted)
      by apply order_by_created_sorted.
    split; [reflexivity |]. rewrite Hsplit.
    split; [exact Hperm |]. split; [| split; [exact Hsorted | split; [| split]]].
    + intros r Hr.
      assert (Hin : In r sorted)
        by (rewrite <- Hsplit; apply List.in_or_app; left; exact Hr).
      apply (Permutation_in _ Hperm) in Hin. unfold matching in Hin.
      apply List.filter_In in Hin. destruct Hin as [Hin Hst].
      split; [exact Hin |].
      destruct (state r), st; try discriminate; reflexivity.
    + intros a b Ha Hb. rewrite <- Hsplit in Hsorted. clear - Hsorted Ha Hb.
      induction (sql_limit limit sorted) as [| x l IH]; [contradiction |].
      simpl in Hsorted. inversion Hsorted as [| x' l' Hl Hall]; subst.
      destruct Ha as [Ha | Ha].
      * subst x. apply (proj1 (List.Forall_forall _ _) Hall).
        apply List.in_or_app. right. exact Hb.
      * apply IH; assumption.
    + intros Hneg. apply Z.ltb_lt in Hneg. rewrite Hneg. reflexivity.
    + intros Hpos. unfold sql_limit.
      assert (Hge : (limit <? 0) = false) by (apply Z.ltb_ge; exact Hpos).
      rewrite Hge, List.length_firstn.
      rewrite (Permutation_length Hperm). reflexivity.
  - intros Hc Hrange. rewrite Hlist, Hc, Hrange. eexists. reflexivity.
  - intros e Hdb Hor. rewrite Hlist. unfold first_fault in Hdb.
    destruct (fault_before_bind db) eqn:Hc.
    + injection Hdb as ->. reflexivity.
    + destruct Hor as [Hor | Hrange]; [discriminate Hor |].
      rewrite Hrange, Hdb. reflexivity.
  - rewrite Hlist. destruct (fault_before_bind db); [reflexivity |].
    destruct (int64 limit); [| reflexivity].
    destruct (fault_after_bind db); reflexivity.
Qed.

Lemma list_jobs_earliest_first_witness :
  (forall l : list job, Permutation (List.rev l) l) /\
  (exists rows,
     Engine.list_jobs no_fault (@List.rev job) pending 2 sample_table =
       (inr rows, sample_table) /\
     List.length rows = 2%nat /\
     forall r, In r rows -> state r = pending) /\
  (exists msg,
     Engine.list_jobs no_fault (@List.rev job) pending 9223372036854775808
       sample_table = (inl (OverflowError msg), sample_table)).
Proof.
  assert (Hscan : forall l : list job, Permutation (List.rev l) l)
    by (intros l; apply Permutation_sym, Permutation_rev).
  split; [exact Hscan |]. split.
  - destruct (proj1 (list_jobs_earliest_first no_fault (@List.rev job) pending 2
                       sample_table Hscan) eq_refl eq_refl)
      as [rows [rest [Hrun [_ [Hin [_ [_ [_ Hlen]]]]]]]].
    exists rows. split; [exact Hrun |].
    split; [rewrite Hlen by lia; reflexivity |].
    intros r Hr. exact (proj2 (Hin r Hr)).
  - exact (proj1 (proj2 (list_jobs_earliest_first no_fault (@List.rev job) pending
                           9223372036854775808 sample_table Hscan))
             eq_refl eq_refl).
Defined.
(** ** The text of a timestamp and the order of time *)

Lemma digit_compare x y :
  Ascii.compare (digit x) (digit y) = (x mod 10 ?= y mod 10).
Proof.
  unfold Ascii.compare, digit.
  pose proof (Z.mod_pos_bound x 10 ltac:(lia)) as Hx.
  pose proof (Z.mod_pos_bound y 10 ltac:(lia)) as Hy.
  rewrite !N_ascii_embedding by lia.
  rewrite <- N2Z.inj_compare, !N2Z.inj_add, !Z2N.id by lia.
  apply Z.add_compare_mono_l.
Qed.

Lemma digits2_compare a b :
  0 <= a < 100 -> 0 <= b < 100 ->
  String.compare (digits2 a) (digits2 b) = (a ?= b).
Proof.
  intros Ha Hb. unfold digits2. simpl. rewrite !digit_compare.
  destruct (Z.compare_spec ((a / 10) mod 10) ((b / 10) mod 10)) as [H1 | H1 | H1];
    [destruct (Z.compare_spec (a mod 10) (b mod 10)) as [H0 | H0 | H0] | |];
    symmetry;
    [apply Z.compare_eq_iff | apply Z.compare_lt_iff | apply Z.compare_gt_iff
    | apply Z.compare_lt_iff | apply Z.compare_gt_iff];
    Z.div_mod_to_equations; lia.
Qed.

Lemma digits2_mod a : digits2 a = digits2 (a mod 100).
Proof.
  unfold digits2, digit.
  replace ((a mod 100 / 10) mod 10) with ((a / 10) mod 10)
    by (Z.div_mod_to_equations; lia).
  replace ((a mod 100) mod 10) with (a mod 10)
    by (Z.div_mod_to_equations; lia).
  reflexivity.
Qed.

Lemma digits4_compare a b :
  0 <= a < 10000 -> 0 <= b < 10000 ->
  String.compare (digits4 a) (digits4 b) = (a ?= b).
Proof.
  intros Ha Hb. unfold digits4.
  rewrite (digits2_mod a), (digits2_mod b).
  cbn [String.compare]. rewrite !digit_compare.
  rewrite digits2_compare by (apply Z.mod_pos_bound; lia).
  destruct (Z.compare_spec ((a / 1000) mod 10) ((b / 1000) mod 10)) as [H3 | H3 | H3];
    [destruct (Z.compare_spec ((a / 100) mod 10) ((b / 100) mod 10)) as [H2 | H2 | H2];
     [destruct (Z.compare_spec (a mod 100) (b mod 100)) as [H0 | H0 | H0] | |] | |];
    symmetry;
    first [apply Z.compare_eq_iff; Z.div_mod_to_equations; lia
          | apply Z.compare_lt_iff; Z.div_mod_to_equations; lia
          | apply Z.compare_gt_iff; Z.div_mod_to_equations; lia].
Qed.

(** The comparison of two lists of numbers, field by field. *)
Lemma string_compare_app p1 p2 r1 r2 :
  String.length p1 = String.length p2 ->
  String.compare (p1 ++ r1) (p2 ++ r2) =
  match String.compare p1 p2 with
  | Eq => String.compare r1 r2
  | c => c
  end.
Proof.
  revert p2. induction p1 as [| c1 p1 IH]; intros [| c2 p2] Hlen;
    try discriminate Hlen; simpl; [reflexivity |].
  destruct (Ascii.compare c1 c2); try reflexivity.
  apply IH. simpl in Hlen. congruence.
Qed.

(** *** The calendar *)

(** Moving by whole 400-year cycles moves the year and nothing else. *)
Lemma civil_from_days_cycle days k :
  civil_from_days (days + 146097 * k) =
  let '(y, m, d) := civil_from_days days in (y + 400 * k, m, d).
Proof.
  unfold civil_from_days.
  replace (days + 146097 * k + 719468) with (days + 719468 + k * 146097) by ring.
  rewrite Z.div_add by lia.
  set (z := days + 719468). set (era := z / 146097).
  replace (z + k * 146097 - (era + k) * 146097) with (z - era * 146097) by ring.
  set (doe := z - era * 146097).
  set (yoe := (doe - doe / 1460 + doe / 36524 - doe / 146096) / 365).
  cbv zeta.
  replace (yoe + (era + k) * 400) with (yoe + era * 400 + 400 * k) by ring.
  f_equal. f_equal. ring.
Qed.

Lemma date_number_cycle days k :
  date_number (days + 146097 * k) = date_number days + 4000000 * k.
Proof.
  unfold date_number. rewrite civil_from_days_cycle.
  destruct (civil_from_days days) as [[y m] d]. ring.
Qed.

Lemma cycle_checked :
  cycle_days_ok (Z.to_nat 146097) 0 (date_number (-1 - 719468)) = true.
Proof. vm_compute. reflexivity. Qed.

Lemma cycle_days_ok_spec n :
  forall z prev,
    cycle_days_ok n z prev = true ->
    prev = date_number (z - 1 - 719468) ->
    forall i, z <= i < z + Z.of_nat n ->
      date_number (i - 1 - 719468) < date_number (i - 719468) /\
      let '(y, m, d) := civil_from_days (i - 719468) in
      1 <= m <= 12 /\ 1 <= d <= 31.
Proof.
  induction n as [| k IH]; intros z prev Hok Hprev i Hi; [lia |].
  cbn [cycle_days_ok] in Hok.
  destruct (civil_from_days (z - 719468)) as [[y m] d] eqn:Hciv.
  repeat (apply andb_true_iff in Hok; destruct Hok as [Hok ?]).
  destruct (Z.eq_dec i z) as [-> | Hne].
  - assert (Hcur : date_number (z - 719468) = (y * 100 + m) * 100 + d)
      by (unfold date_number; rewrite Hciv; reflexivity).
    rewrite Hciv, Hcur. subst prev.
    split; [apply Z.ltb_lt; assumption |].
    repeat match goal with H : (_ <=? _) = true |- _ => apply Z.leb_le in H end.
    lia.
  - apply (IH (z + 1) ((y * 100 + m) * 100 + d)); [assumption | | lia].
    replace (z + 1 - 1 - 719468) with (z - 719468) by ring.
    unfold date_number. rewrite Hciv. reflexivity.
Qed.

(** Every day has a month in [1 .. 12] and a day of the month in
    [1 .. 31], and a date later than the one of the day before. *)
Lemma civil_from_days_next days :
  date_number (days - 1) < date_number days /\
  let '(y, m, d) := civil_from_days days in 1 <= m <= 12 /\ 1 <= d <= 31.
Proof.
  set (k := (days + 719468) / 146097).
  set (i := (days + 719468) mod 146097).
  assert (Hdays : days = (i - 719468) + 146097 * k).
  { unfold i, k. Z.div_mod_to_equations. lia. }
  assert (Hi : 0 <= i < 0 + Z.of_nat (Z.to_nat 146097)).
  { unfold i. rewrite Z2Nat.id by lia. Z.div_mod_to_equations. lia. }
  destruct (cycle_days_ok_spec _ _ _ cycle_checked eq_refl i Hi) as [Hlt Hrange].
  rewrite Hdays.
  replace (i - 719468 + 146097 * k - 1) with (i - 1 - 719468 + 146097 * k) by ring.
  rewrite !date_number_cycle, civil_from_days_cycle.
  destruct (civil_from_days (i - 719468)) as [[y m] d].
  split; [lia | exact Hrange].
Qed.

Lemma date_number_increasing a b : a < b -> date_number a < date_number b.
Proof.
  intros Hab. replace b with (a + 1 + (b - a - 1)) by ring.
  assert (Hn : 0 <= b - a - 1) by lia.
  generalize (b - a - 1) Hn. clear Hab Hn b.
  apply natlike_ind.
  - replace (a + 1 + 0) with (a + 1) by ring.
    pose proof (civil_from_days_next (a + 1)) as [H _].
    replace (a + 1 - 1) with a in H by ring. exact H.
  - intros n Hn IH.
    pose proof (civil_from_days_next (a + 1 + Z.succ n)) as [H _].
    replace (a + 1 + Z.succ n - 1) with (a + 1 + n) in H by lia. lia.
Qed.

(** *** The text *)

Lemma string_compare_cons_same c r1 r2 :
  String.compare (String c r1) (String c r2) = String.compare r1 r2.
Proof.
  simpl. assert (H : Ascii.compare c c = Eq).
  { unfold Ascii.compare. apply N.compare_refl. }
  rewrite H. reflexivity.
Qed.

Lemma string_append_char c r :
  (String c EmptyString ++ r)%string = String c r.
Proof. reflexivity. Qed.

Lemma digits2_append_compare a b r1 r2 :
  0 <= a < 100 -> 0 <= b < 100 ->
  String.compare (digits2 a ++ r1) (digits2 b ++ r2) =
  match a ?= b with
  | Eq => String.compare r1 r2
  | c => c
  end.
Proof.
  intros Ha Hb. rewrite string_compare_app by reflexivity.
  rewrite digits2_compare by assumption. reflexivity.
Qed.

(** Two timestamps compare as texts the way their fields compare as
    numbers, the year first. *)
Lemma iso_format_compare y1 m1 d1 h1 i1 s1 y2 m2 d2 h2 i2 s2 :
  0 <= y1 < 10000 -> 0 <= y2 < 10000 ->
  0 <= m1 < 100 -> 0 <= m2 < 100 -> 0 <= d1 < 100 -> 0 <= d2 < 100 ->
  0 <= h1 < 100 -> 0 <= h2 < 100 -> 0 <= i1 < 100 -> 0 <= i2 < 100 ->
  0 <= s1 < 100 -> 0 <= s2 < 100 ->
  String.compare (iso_format y1 m1 d1 h1 i1 s1) (iso_format y2 m2 d2 h2 i2 s2) =
  lex_compare [y1; m1; d1; h1; i1; s1] [y2; m2; d2; h2; i2; s2].
Proof.
  intros. unfold iso_format. cbn [lex_compare].
  rewrite !string_append_char.
  rewrite string_compare_app by reflexivity.
  rewrite digits4_compare by assumption.
  destruct (y1 ?= y2); try reflexivity.
  rewrite string_compare_cons_same, digits2_append_compare by assumption.
  destruct (m1 ?= m2); try reflexivity.
  rewrite string_compare_cons_same, digits2_append_compare by assumption.
  destruct (d1 ?= d2); try reflexivity.
  rewrite string_compare_cons_same, digits2_append_compare by assumption.
  destruct (h1 ?= h2); try reflexivity.
  rewrite string_compare_cons_same, digits2_append_compare by assumption.
  destruct (i1 ?= i2); try reflexivity.
  rewrite string_compare_cons_same, digits2_append_compare by assumption.
  destruct (s1 ?= s2); reflexivity.
Qed.

Lemma sql_strftime_iso_format sec :
  sql_strftime_iso sec =
  let '(y, m, d) := civil_from_days (sec / 86400) in
  iso_format y m d (sec mod 86400 / 3600) (sec mod 86400 mod 3600 / 60)
    (sec mod 86400 mod 60).
Proof.
  unfold sql_strftime_iso, iso_format.
  destruct (civil_from_days (sec / 86400)) as [[y m] d]. reflexivity.
Qed.

(** The fields of an instant that [datetime] can hold have the width of
    their place in the text. *)
Lemma civil_from_days_range sec :
  first_second <= sec <= last_second ->
  let '(y, m, d) := civil_from_days (sec / 86400) in
  1 <= y <= 9999 /\ 1 <= m <= 12 /\ 1 <= d <= 31.
Proof.
  unfold first_second, last_second. intros Hsec.
  assert (Hdays : -719162 <= sec / 86400 <= 2932896)
    by (Z.div_mod_to_equations; lia).
  pose proof (civil_from_days_next (sec / 86400)) as [_ Hmd].
  assert (Hlo : date_number (-719162) <= date_number (sec / 86400)).
  { destruct (Z.eq_dec (sec / 86400) (-719162)) as [-> | Hne]; [lia |].
    apply Z.lt_le_incl. apply date_number_increasing. lia. }
  assert (Hhi : date_number (sec / 86400) <= date_number 2932896).
  { destruct (Z.eq_dec (sec / 86400) 2932896) as [-> | Hne]; [lia |].
    apply Z.lt_le_incl. apply date_number_increasing. lia. }
  change (date_number (-719162)) with 10101 in Hlo.
  change (date_number 2932896) with 99991231 in Hhi.
  unfold date_number in Hlo, Hhi.
  destruct (civil_from_days (sec / 86400)) as [[y m] d]. lia.
Qed.

(** From the first second of the year 1000 on, the year has four digits. *)
Lemma civil_from_days_range_1000 sec :
  first_second_1000 <= sec <= last_second ->
  let '(y, m, d) := civil_from_days (sec / 86400) in 1000 <= y <= 9999.
Proof.
  intros Hsec.
  pose proof (civil_from_days_range sec) as Hr.
  unfold first_second_1000, first_second, last_second in *.
  specialize (Hr ltac:(lia)).
  assert (Hdays : -354285 <= sec / 86400) by (Z.div_mod_to_equations; lia).
  assert (Hlo : date_number (-354285) <= date_number (sec / 86400)).
  { destruct (Z.eq_dec (sec / 86400) (-354285)) as [-> | Hne]; [lia |].
    apply Z.lt_le_incl. apply date_number_increasing. lia. }
  change (date_number (-354285)) with 10000101 in Hlo.
  unfold date_number in Hlo.
  destruct (civil_from_days (sec / 86400)) as [[y m] d]. lia.
Qed.

(** The text of a later second is a later text. *)
Lemma sql_strftime_iso_increasing a b :
  first_second <= a -> a < b -> b <= last_second ->
  String.compare (sql_strftime_iso a) (sql_strftime_iso b) = Lt.
Proof.
  intros Hlo Hab Hhi.
  pose proof (civil_from_days_range a ltac:(lia)) as Ha.
  pose proof (civil_from_days_range b ltac:(lia)) as Hb.
  assert (Hcases : a / 86400 < b / 86400 \/
                   (a / 86400 = b / 86400 /\ a mod 86400 < b mod 86400))
    by (Z.div_mod_to_equations; lia).
  assert (Hdate : a / 86400 < b / 86400 ->
                  date_number (a / 86400) < date_number (b / 86400))
    by apply date_number_increasing.
  rewrite !sql_strftime_iso_format.
  unfold date_number in Hdate.
  destruct Hcases as [Hdays | [Hsame Hsod]].
  - specialize (Hdate Hdays).
    destruct (civil_from_days (a / 86400)) as [[y1 m1] d1].
    destruct (civil_from_days (b / 86400)) as [[y2 m2] d2].
    pose proof (Z.mod_pos_bound a 86400 ltac:(lia)) as Hsa.
    pose proof (Z.mod_pos_bound b 86400 ltac:(lia)) as Hsb.
    rewrite iso_format_compare by (try lia; Z.div_mod_to_equations; lia).
    cbn [lex_compare].
    destruct (Z.compare_spec y1 y2) as [Hy | Hy | Hy]; [| reflexivity | lia].
    destruct (Z.compare_spec m1 m2) as [Hm | Hm | Hm]; [| reflexivity | lia].
    destruct (Z.compare_spec d1 d2) as [Hd | Hd | Hd]; [lia | reflexivity | lia].
  - clear Hdate. rewrite <- Hsame in *.
    destruct (civil_from_days (a / 86400)) as [[y1 m1] d1].
    pose proof (Z.mod_pos_bound a 86400 ltac:(lia)) as Hsa.
    pose proof (Z.mod_pos_bound b 86400 ltac:(lia)) as Hsb.
    set (x := a mod 86400) in *. set (y := b mod 86400) in *.
    rewrite iso_format_compare by (try lia; Z.div_mod_to_equations; lia).
    cbn [lex_compare]. rewrite !Z.compare_refl.
    destruct (Z.compare_spec (x / 3600) (y / 3600)) as [Hh | Hh | Hh];
      [| reflexivity | exfalso; Z.div_mod_to_equations; lia].
    destruct (Z.compare_spec (x mod 3600 / 60) (y mod 3600 / 60)) as [Hm | Hm | Hm];
      [| reflexivity | exfalso; Z.div_mod_to_equations; lia].
    destruct (Z.compare_spec (x mod 60) (y mod 60)) as [Hs | Hs | Hs];
      [exfalso; Z.div_mod_to_equations; lia | reflexivity
      | exfalso; Z.div_mod_to_equations; lia].
Qed.

Lemma sql_strftime_iso_compare a b :
  first_second <= a <= last_second ->
  first_second <= b <= last_second ->
  String.compare (sql_strftime_iso a) (sql_strftime_iso b) = (a ?= b).
Proof.
  intros Ha Hb. destruct (Z.compare_spec a b) as [Heq | Hlt | Hgt].
  - subst b. apply string_compare_refl.
  - apply sql_strftime_iso_increasing; lia.
  - rewrite String.compare_antisym.
    rewrite (sql_strftime_iso_increasing b a) by lia. reflexivity.
Qed.

(** *** Years of four digits *)

Lemma years_agree_spec n :
  forall y, years_agree n y = true ->
  forall k, y <= k < y + Z.of_nat n -> show k = digits4 k.
Proof.
  induction n as [| n IH]; intros y Hok k Hk; [lia |].
  cbn [years_agree] in Hok. apply andb_true_iff in Hok. destruct Hok as [Hy Hrest].
  destruct (Z.eq_dec k y) as [-> | Hne].
  - apply String.eqb_eq. exact Hy.
  - apply (IH (y + 1) Hrest). lia.
Qed.

Lemma years_checked : years_agree (Z.to_nat 9000) 1000 = true.
Proof. vm_compute. reflexivity. Qed.

Lemma show_digits4 y : 1000 <= y <= 9999 -> show y = digits4 y.
Proof.
  intros Hy. apply (years_agree_spec (Z.to_nat 9000) 1000 years_checked).
  rewrite Z2Nat.id by lia. lia.
Qed.

(** From the year 1000 on, Python and SQLite print the same text. *)
Lemma strftime_iso_sql sec :
  first_second_1000 <= sec <= last_second ->
  strftime_iso sec = sql_strftime_iso sec.
Proof.
  intros Hsec. pose proof (civil_from_days_range_1000 sec Hsec) as Hy.
  unfold strftime_iso, sql_strftime_iso.
  destruct (civil_from_days (sec / 86400)) as [[y m] d].
  rewrite (show_digits4 y Hy). reflexivity.
Qed.

Lemma strftime_iso_compare a b :
  first_second_1000 <= a <= last_second ->
  first_second_1000 <= b <= last_second ->
  String.compare (strftime_iso a) (strftime_iso b) = (a ?= b).
Proof.
  intros Ha Hb. rewrite !strftime_iso_sql by assumption.
  unfold first_second_1000 in *.
  apply sql_strftime_iso_compare; unfold first_second; lia.
Qed.

Lemma compare_leb a b (x y : string) :
  String.compare x y = (a ?= b) -> (String.leb x y = true <-> a <= b).
Proof.
  intros H. unfold String.leb. rewrite H.
  destruct (Z.compare_spec a b); split; intros; try lia; try reflexivity;
    discriminate.
Qed.

(** The text of the instant [next] that Python printed against the [now]
    of a statement. *)
Lemma strftime_iso_leb_sql_now next clock :
  first_second_1000 <= next <= last_second ->
  first_second_1000 <= second_of clock <= last_second ->
  String.leb (strftime_iso next) (sql_now clock) = true <-> next <= second_of clock.
Proof.
  intros Hn Hc. unfold sql_now. rewrite strftime_iso_sql by assumption.
  apply compare_leb. unfold first_second_1000 in *.
  apply sql_strftime_iso_compare; unfold first_second; lia.
Qed.

(** Text order is time order.  For two instants that [datetime] can hold,
    the timestamps that SQLite prints compare, as TEXT values, the way the
    instants compare.  From the year 1000 on, Python prints the same text
    as SQLite, so that the timestamps [get_iso_now] and [calculate_backoff]
    produce compare the way the instants compare, with each other and with
    the [now] of a statement; in particular different seconds are printed
    differently. *)
Theorem strftime_iso_text_order_is_time_order (a b : Z) :
  (first_second <= a <= last_second -> first_second <= b <= last_second ->
   String.compare (sql_strftime_iso a) (sql_strftime_iso b) = (a ?= b)) /\
  (first_second_1000 <= a <= last_second ->
   first_second_1000 <= b <= last_second ->
   strftime_iso a = sql_strftime_iso a /\
   String.compare (strftime_iso a) (strftime_iso b) = (a ?= b) /\
   (String.leb (strftime_iso a) (strftime_iso b) = true <-> a <= b) /\
   (String.leb (strftime_iso a) (sql_strftime_iso b) = true <-> a <= b) /\
   (strftime_iso a = strftime_iso b -> a = b)).
Proof.
  split; [apply sql_strftime_iso_compare |].
  intros Ha Hb.
  pose proof (strftime_iso_compare a b Ha Hb) as Hcmp.
  split; [apply strftime_iso_sql; exact Ha |].
  split; [exact Hcmp |]. split; [apply compare_leb; exact Hcmp |].
  split.
  - rewrite <- (strftime_iso_sql b Hb). apply compare_leb. exact Hcmp.
  - intros Heq. rewrite Heq, string_compare_refl in Hcmp.
    symmetry in Hcmp. apply Z.compare_eq_iff in Hcmp. exact Hcmp.
Qed.

Lemma strftime_iso_text_order_is_time_order_witness :
  first_second_1000 <= 1793707200 <= last_second /\
  first_second_1000 <= 4102444800 <= last_second /\
  String.leb "2026-11-03T12:00:00Z" "2100-01-01T00:00:00Z" = true.
Proof.
  assert (Ha : first_second_1000 <= 1793707200 <= last_second)
    by (unfold first_second_1000, last_second; lia).
  assert (Hb : first_second_1000 <= 4102444800 <= last_second)
    by (unfold first_second_1000, last_second; lia).
  split; [exact Ha |]. split; [exact Hb |].
  apply (proj2 (proj1 (proj2 (proj2
           (proj2 (strftime_iso_text_order_is_time_order 1793707200 4102444800)
              Ha Hb))))).
  lia.
Defined.

(** Before the year 1000 the text Python prints is shorter, and its order
    is not the order of time: the last second of the year 999 is printed
    as a text that comes after the one of a second of 2026. *)
Example strftime_iso_before_1000 :
  strftime_iso (first_second_1000 - 1) = "999-12-31T23:59:59Z" /\
  sql_strftime_iso (first_second_1000 - 1) = "0999-12-31T23:59:59Z" /\
  first_second_1000 - 1 < second_of sample_clock /\
  String.leb (strftime_iso (first_second_1000 - 1)) (sql_now sample_clock) = false.
Proof.
  split; [vm_compute; reflexivity |]. split; [vm_compute; reflexivity |].
  split; [vm_compute; reflexivity | vm_compute; reflexivity].
Qed.

(** ** A scheduled job waits for its [run_at] *)

Lemma second_of_range us :
  datetime_min <= us <= datetime_max ->
  first_second <= second_of us <= last_second.
Proof.
  unfold datetime_min, datetime_max, first_second, last_second, second_of.
  intros H. Z.div_mod_to_equations. lia.
Qed.

(** A pending job whose [run_at] is the text Python prints for the second
    [next], as [calculate_backoff] writes it, is not handed out before
    [next]: at a clock reading from the year 1000 on it is eligible exactly
    when the second of the clock has reached [next]; before that, no
    [dequeue] returns the job; from then on, a [dequeue] that the engine
    carries out returns a job. *)
Theorem scheduled_job_waits_for_run_at (next clock : Z) (s : store) (r : job)
    (i : string) :
  primary_key s ->
  List.find (has_id i) s = Some r ->
  state r = pending ->
  run_at r = Some (strftime_iso next) ->
  first_second_1000 <= next <= last_second ->
  first_second_1000 <= second_of clock <= last_second ->
  (eligible (sql_now clock) r = true <-> next <= second_of clock) /\
  (second_of clock < next ->
   forall fault j' s',
     dequeue fault clock s = (inr (Some j'), s') -> id j' <> i) /\
  (next <= second_of clock ->
   exists j' s', dequeue None clock s = (inr (Some j'), s')).
Proof.
  intros PK Hfind Hst Hra Hnext Hclock.
  assert (Hel : eligible (sql_now clock) r = true <-> next <= second_of clock).
  { unfold eligible. rewrite Hst, Hra. simpl.
    apply strftime_iso_leb_sql_now; assumption. }
  split; [exact Hel |]. split.
  - intros Hbefore fault j' s' Hdq.
    eapply not_eligible_not_claimed; [exact PK | exact Hfind | | exact Hdq].
    destruct (eligible (sql_now clock) r) eqn:He; [| reflexivity].
    exfalso. pose proof (proj1 Hel eq_refl) as Hle. lia.
  - intros Hdue. apply Hel in Hdue.
    assert (Hin : In r s) by (apply List.find_some in Hfind; tauto).
    unfold dequeue.
    destruct (golden_query_spec (sql_now clock) s PK)
      as [[Hnone Hq] | [b [_ [_ [_ Hq]]]]]; rewrite Hq.
    + rewrite (Hnone r Hin) in Hdue. discriminate Hdue.
    + simpl. eexists. eexists. reflexivity.
Qed.

Lemma scheduled_job_waits_for_run_at_witness :
  let r := sample_pending "w" "2026-11-03T11:00:00Z" 0
             (Some "2030-01-01T00:00:00Z") in
  primary_key [r] /\
  strftime_iso 1893456000 = "2030-01-01T00:00:00Z" /\
  second_of sample_clock < 1893456000 /\
  forall fault j' s',
    dequeue fault sample_clock [r] = (inr (Some j'), s') -> id j' <> "w".
Proof.
  cbv zeta.
  assert (PK : primary_key [sample_pending "w" "2026-11-03T11:00:00Z" 0
                              (Some "2030-01-01T00:00:00Z")]).
  { unfold primary_key. simpl. repeat constructor. intros []. }
  assert (Hlt : second_of sample_clock < 1893456000) by (vm_compute; reflexivity).
  split; [exact PK |]. split; [vm_compute; reflexivity |]. split; [exact Hlt |].
  apply (proj1 (proj2 (scheduled_job_waits_for_run_at 1893456000 sample_clock
                         _ _ "w" PK eq_refl eq_refl eq_refl
                         ltac:(unfold first_second_1000, last_second; lia)
                         ltac:(unfold first_second_1000, last_second;
                               split; [vm_compute; discriminate
                                      | vm_compute; discriminate])))).
  exact Hlt.
Defined.
